(** * image_qrcode.apps.kotik_apps

    A shallow embedding of the four processors of [kotik_apps.py]
    ([generate_qr_code], [enhance_image], [convert_to_cmyk] and
    [extract_white_underbase]) and the properties of them that the
    specification states.

    Definitions:
    - [Py]       : the Python fragments the processors rely on (exceptions,
                   unbound locals, dict iteration, string methods,
                   posixpath.join);
    - [PIL]      : the Pillow calls the processors make, on 8-bit rasters in
                   the modes L, LA, RGB, RGBA and CMYK;
    - [Host]     : the world the processors act on (files, shared assets,
                   clock) and the state-and-exception monad they run in;
    - [Kotik]    : the processors themselves; the QR encoder, the clock
                   format, APP_DIR and the enhancer's arithmetic are
                   parameters;
    - [Readings] : the vocabulary of the statements;
    - [Samples]  : concrete images, worlds and collaborators;

    - [Traces]   : what a completed QR batch leaves behind, and the
                   vocabulary of the further properties.

    Theorems: [PILFacts], then [Underbase] and [Cmyk] for the image work of
    one row, [Batch] for the loops and [Processors] for whole calls; further
    properties in [QRBatch], [RowImages] and [ImageBatches]; [NoOutput] for
    what the image processors fail to return. *)

From Stdlib Require Import ZArith List String Ascii Bool Lia Floats.
Import ListNotations.

(* ------------------------------------------------------------------ *)
(** ** Python fragments *)

Module Py.

(** The exceptions that can leave a processor.  None of the processors has a
    [try] block, so every one of them goes straight to the caller. *)
Inductive exn :=
| FileNotFoundError (path : string)
| UnidentifiedImageError (path : string)
| UnboundLocalError (var : string)
| TypeError (what : string)
| ValueError (what : string)
| IndexError
| DataOverflowError.

Inductive result (A : Type) :=
| Ok (a : A)
| Raise (e : exn).
Arguments Ok {A} a.
Arguments Raise {A} e.

Definition is_ok {A} (r : result A) : bool :=
  match r with Ok _ => true | Raise _ => false end.

(** A local variable of a function body: unbound until first assigned. *)
Definition local (A : Type) := option A.

Definition read_local {A} (name : string) (v : local A) : result A :=
  match v with
  | Some a => Ok a
  | None => Raise (UnboundLocalError name)
  end.

(** The values a dataframe cell or a loop variable can hold here. *)
Inductive value :=
| VStr (s : string)
| VFloat (f : float).

(** A [dict] keeps insertion order; iterating it yields its keys. *)
Definition dict := list (string * value).

Definition keys (d : dict) : list string := map fst d.

(** [a, b, c = it] *)
Definition unpack3 {A} (it : list A) : result (A * A * A) :=
  match it with
  | [a; b; c] => Ok (a, b, c)
  | _ :: _ :: _ :: _ :: _ => Raise (ValueError "too many values to unpack (expected 3)")
  | _ => Raise (ValueError "not enough values to unpack (expected 3)")
  end.

(** [str.lower], on the ASCII range. *)
Definition lower_ascii (c : ascii) : ascii :=
  let n := nat_of_ascii c in
  if andb (Nat.leb 65 n) (Nat.leb n 90) then ascii_of_nat (n + 32) else c.

Fixpoint lower (s : string) : string :=
  match s with
  | EmptyString => EmptyString
  | String c r => String (lower_ascii c) (lower r)
  end.

Fixpoint startswith (s p : string) : bool :=
  match p, s with
  | EmptyString, _ => true
  | String _ _, EmptyString => false
  | String a p', String b s' => andb (Ascii.eqb a b) (startswith s' p')
  end.

(** [s.endswith(suffix)] *)
Definition endswith (s suffix : string) : bool :=
  let n := String.length s in
  let k := String.length suffix in
  andb (Nat.leb k n) (String.eqb (substring (n - k) k s) suffix).

(** [os.path.join(a, b)] on a POSIX host, for two components. *)
Definition path_join (a b : string) : string :=
  if startswith b "/" then b
  else if orb (String.eqb a "") (endswith a "/") then (a ++ b)%string
  else (a ++ "/" ++ b)%string.

End Py.
Export Py.

(* ------------------------------------------------------------------ *)
(** ** Pillow *)

Module PIL.

Local Open Scope Z_scope.

Inductive mode := L | LA | RGB | RGBA | CMYK.

Definition mode_eqb (a b : mode) : bool :=
  match a, b with
  | L, L | LA, LA | RGB, RGB | RGBA, RGBA | CMYK, CMYK => true
  | _, _ => false
  end.

(** The pixel store of an image, one constructor per mode; band values are
    unsigned bytes held in [Z]. *)
Inductive raster :=
| PxL (d : list Z)
| PxLA (d : list (Z * Z))
| PxRGB (d : list (Z * Z * Z))
| PxRGBA (d : list (Z * Z * Z * Z))
| PxCMYK (d : list (Z * Z * Z * Z)).

Record Image := mkImage { size : nat * nat; im : raster }.

Definition mode_of (i : Image) : mode :=
  match im i with
  | PxL _ => L | PxLA _ => LA | PxRGB _ => RGB | PxRGBA _ => RGBA | PxCMYK _ => CMYK
  end.

Definition getbands (m : mode) : list string :=
  match m with
  | L => ["L"]
  | LA => ["L"; "A"]
  | RGB => ["R"; "G"; "B"]
  | RGBA => ["R"; "G"; "B"; "A"]
  | CMYK => ["C"; "M"; "Y"; "K"]
  end%string.

(** [ImageMode.getmodebase] *)
Definition getmodebase (m : mode) : mode :=
  match m with
  | L | LA => L
  | RGB | RGBA | CMYK => RGB
  end.

(** *** Per-pixel converters (libImaging/Convert.c) *)

(** [~v] stored back into a [UINT8]. *)
Definition inv8 (v : Z) : Z := Z.land (Z.lnot v) 255.

(** ITU-R 601-2 luma in 16.16 fixed point. *)
Definition L24 (r g b : Z) : Z :=
  Z.shiftr (r * 19595 + g * 38470 + b * 7471 + 32768) 16.

Definition MULDIV255 (a b : Z) : Z :=
  let tmp := a * b + 128 in Z.shiftr (Z.shiftr tmp 8 + tmp) 8.

Definition CLIP8 (v : Z) : Z :=
  if v <=? 0 then 0 else if v <? 256 then v else 255.

Definition cmyk2rgb (p : Z * Z * Z * Z) : Z * Z * Z :=
  let '(c, m, y, k) := p in
  let nk := 255 - k in
  (CLIP8 (nk - MULDIV255 c nk), CLIP8 (nk - MULDIV255 m nk), CLIP8 (nk - MULDIV255 y nk)).

Definition rgb2cmyk (r g b : Z) : Z * Z * Z * Z := (inv8 r, inv8 g, inv8 b, 0).

Definition l2cmyk (l : Z) : Z * Z * Z * Z := (0, 0, 0, inv8 l).

Definition opaque (p : Z * Z * Z) : Z * Z * Z * Z := let '(r, g, b) := p in (r, g, b, 255).

Definition luma (p : Z * Z * Z) : Z := let '(r, g, b) := p in L24 r g b.

Definition to_RGBA (r : raster) : list (Z * Z * Z * Z) :=
  match r with
  | PxL d => map (fun l => (l, l, l, 255)) d
  | PxLA d => map (fun '(l, a) => (l, l, l, a)) d
  | PxRGB d => map opaque d
  | PxRGBA d => d
  | PxCMYK d => map (fun p => opaque (cmyk2rgb p)) d
  end.

Definition to_RGB (r : raster) : list (Z * Z * Z) :=
  match r with
  | PxL d => map (fun l => (l, l, l)) d
  | PxLA d => map (fun '(l, _) => (l, l, l)) d
  | PxRGB d => d
  | PxRGBA d => map (fun '(r, g, b, _) => (r, g, b)) d
  | PxCMYK d => map cmyk2rgb d
  end.

Definition to_L (r : raster) : list Z :=
  match r with
  | PxL d => d
  | PxLA d => map fst d
  | PxRGB d => map luma d
  | PxRGBA d => map (fun '(r, g, b, _) => L24 r g b) d
  | PxCMYK d => map (fun p => luma (cmyk2rgb p)) d
  end.

Definition to_LA (r : raster) : list (Z * Z) :=
  match r with
  | PxL d => map (fun l => (l, 255)) d
  | PxLA d => d
  | PxRGB d => map (fun p => (luma p, 255)) d
  | PxRGBA d => map (fun '(r, g, b, a) => (L24 r g b, a)) d
  | PxCMYK d => map (fun p => (luma (cmyk2rgb p), 255)) d
  end.

Definition to_CMYK (r : raster) : list (Z * Z * Z * Z) :=
  match r with
  | PxL d => map l2cmyk d
  | PxLA d => map (fun '(l, _) => l2cmyk l) d
  | PxRGB d => map (fun '(r, g, b) => rgb2cmyk r g b) d
  | PxRGBA d => map (fun '(r, g, b, _) => rgb2cmyk r g b) d
  | PxCMYK d => d
  end.

Definition convert_raster (m : mode) (r : raster) : raster :=
  match m with
  | L => PxL (to_L r)
  | LA => PxLA (to_LA r)
  | RGB => PxRGB (to_RGB r)
  | RGBA => PxRGBA (to_RGBA r)
  | CMYK => PxCMYK (to_CMYK r)
  end.

(** [Image.convert(mode)] *)
Definition convert (m : mode) (i : Image) : Image :=
  mkImage (size i) (convert_raster m (im i)).

(** *** Bands *)

(** The planes of a raster, in band order. *)
Definition planes (r : raster) : list (list Z) :=
  match r with
  | PxL d => [d]
  | PxLA d => [map fst d; map snd d]
  | PxRGB d => [map (fun '(r, _, _) => r) d; map (fun '(_, g, _) => g) d;
                map (fun '(_, _, b) => b) d]
  | PxRGBA d | PxCMYK d =>
      [map (fun '(a, _, _, _) => a) d; map (fun '(_, b, _, _) => b) d;
       map (fun '(_, _, c, _) => c) d; map (fun '(_, _, _, e) => e) d]
  end.

(** [Image.split()] *)
Definition split (i : Image) : list Image :=
  map (fun p => mkImage (size i) (PxL p)) (planes (im i)).

(** [seq[n]] *)
Definition getitem {A} (s : list A) (n : nat) : result A :=
  match nth_error s n with
  | Some a => Ok a
  | None => Raise IndexError
  end.

Fixpoint index_of (ch : string) (bands : list string) : option nat :=
  match bands with
  | [] => None
  | b :: r => if String.eqb b ch then Some O else option_map S (index_of ch r)
  end.

(** [Image.getchannel(name)] *)
Definition getchannel (i : Image) (ch : string) : result Image :=
  match index_of ch (getbands (mode_of i)) with
  | None => Raise (ValueError "The image has no such channel")
  | Some n => getitem (split i) n
  end.

(** [Image.point(f)]: the callable is tabulated and applied to every band value. *)
Definition point (f : Z -> Z) (i : Image) : Image :=
  mkImage (size i)
    match im i with
    | PxL d => PxL (map f d)
    | PxLA d => PxLA (map (fun '(l, a) => (f l, f a)) d)
    | PxRGB d => PxRGB (map (fun '(r, g, b) => (f r, f g, f b)) d)
    | PxRGBA d => PxRGBA (map (fun '(r, g, b, a) => (f r, f g, f b, f a)) d)
    | PxCMYK d => PxCMYK (map (fun '(c, m, y, k) => (f c, f m, f y, f k)) d)
    end.

Definition size_eqb (a b : nat * nat) : bool :=
  andb (Nat.eqb (fst a) (fst b)) (Nat.eqb (snd a) (snd b)).

Definition zip3 {A B C} (a : list A) (b : list B) (c : list C) : list (A * B * C) :=
  combine (combine a b) c.

Definition zip4 {A B C D} (a : list A) (b : list B) (c : list C) (d : list D)
  : list (A * B * C * D) :=
  combine (zip3 a b c) d.

Definition interleave (m : mode) (p : list (list Z)) : result raster :=
  match m, p with
  | L, [l] => Ok (PxL l)
  | LA, [l; a] => Ok (PxLA (combine l a))
  | RGB, [r; g; b] => Ok (PxRGB (zip3 r g b))
  | RGBA, [r; g; b; a] => Ok (PxRGBA (zip4 r g b a))
  | CMYK, [c; m; y; k] => Ok (PxCMYK (zip4 c m y k))
  | _, _ => Raise (ValueError "wrong number of bands")
  end.

Fixpoint band_planes (sz : nat * nat) (bands : list Image) : result (list (list Z)) :=
  match bands with
  | [] => Ok []
  | b :: r =>
      match im b with
      | PxL d =>
          if size_eqb (size b) sz then
            match band_planes sz r with
            | Ok ps => Ok (d :: ps)
            | Raise e => Raise e
            end
          else Raise (ValueError "size mismatch")
      | _ => Raise (ValueError "mode mismatch")
      end
  end.

(** [Image.merge(mode, bands)] *)
Definition merge (m : mode) (bands : list Image) : result Image :=
  match bands with
  | [] => Raise (ValueError "wrong number of bands")
  | b0 :: _ =>
      if negb (Nat.eqb (List.length (getbands m)) (List.length bands))
      then Raise (ValueError "wrong number of bands")
      else
        match band_planes (size b0) bands with
        | Raise e => Raise e
        | Ok ps =>
            match interleave m ps with
            | Ok r => Ok (mkImage (size b0) r)
            | Raise e => Raise e
            end
        end
  end.

(** Replace the last band of each pixel, as [im.putband(alpha, band)] does
    for the alpha band. *)
Definition putband_alpha (r : raster) (a : list Z) : raster :=
  match r with
  | PxLA d => PxLA (combine (map fst d) a)
  | PxRGBA d => PxRGBA (combine (map fst d) a)
  | other => other
  end.

(** [Image.putalpha(alpha)] with an image argument.  An image without an alpha
    band is first promoted to [getmodebase(mode) + "A"]: an ["L"] image becomes
    ["LA"], an ["RGB"] or ["CMYK"] image becomes ["RGBA"]. *)
Definition putalpha (i : Image) (alpha : Image) : result Image :=
  let promoted :=
    match mode_of i with
    | LA | RGBA => i
    | _ => convert (match getmodebase (mode_of i) with L => LA | _ => RGBA end) i
    end in
  match im alpha with
  | PxL a =>
      if size_eqb (size alpha) (size promoted)
      then Ok (mkImage (size promoted) (putband_alpha (im promoted) a))
      else Raise (ValueError "images do not match")
  | _ => Raise (ValueError "illegal image mode")
  end.

(** A Pillow image object is always truthy; [None] is falsy. *)
Definition truthy (o : option Image) : bool :=
  match o with Some _ => true | None => false end.

End PIL.
Export PIL.

(* ------------------------------------------------------------------ *)
(** ** The host: files, shared assets, clock *)

Module Host.

(** What a path holds, as the two decoders in use see it. *)
Inductive file :=
| Garbage                            (* no decoder accepts it *)
| Picture (i : Image)                (* a raster file; [i] is what Pillow decodes *)
| Layered (flat composite : Image).  (* a PSD: Pillow's reading and psd_tools' composite *)

Record World := mkWorld {
  files : list (string * file);        (* newest write first *)
  shared : list string;                (* [context.share] calls, newest first *)
  synchronized : list (list string);   (* [context.synchronize] calls, newest first *)
  clock : nat                          (* number of [datetime.now()] readings so far *)
}.

Fixpoint lookup (path : string) (fs : list (string * file)) : option file :=
  match fs with
  | [] => None
  | (p, f) :: r => if String.eqb p path then Some f else lookup path r
  end.

(** State and exceptions: an exception keeps the effects made before it. *)
Definition M (A : Type) : Type := World -> result A * World.

Definition ret {A} (a : A) : M A := fun w => (Ok a, w).

Definition bind {A B} (c : M A) (k : A -> M B) : M B :=
  fun w =>
    match c w with
    | (Ok a, w') => k a w'
    | (Raise e, w') => (Raise e, w')
    end.

Definition lift {A} (r : result A) : M A := fun w => (r, w).

Declare Scope py_scope.
Delimit Scope py_scope with py.
Notation "x <- c ;; k" := (bind c (fun x => k))
  (at level 61, c at next level, right associativity) : py_scope.
Notation "' p <- c ;; k" := (bind c (fun p => k))
  (at level 61, p pattern, c at next level, right associativity) : py_scope.
Notation "c ;;; k" := (bind c (fun _ => k))
  (at level 61, right associativity) : py_scope.

(** [for r in rows: st = body(r, st)] *)
Fixpoint for_each {R S} (body : R -> S -> M S) (rows : list R) (st : S) : M S :=
  match rows with
  | [] => ret st
  | r :: rs => bind (body r st) (for_each body rs)
  end.

(** [Image.open(path)] *)
Definition Image_open (path : string) : M Image :=
  fun w =>
    match lookup path (files w) with
    | None => (Raise (FileNotFoundError path), w)
    | Some Garbage => (Raise (UnidentifiedImageError path), w)
    | Some (Picture i) => (Ok i, w)
    | Some (Layered flat _) => (Ok flat, w)
    end.

(** [PSDImage.open(path).composite()] *)
Definition PSDImage_open_composite (path : string) : M Image :=
  fun w =>
    match lookup path (files w) with
    | None => (Raise (FileNotFoundError path), w)
    | Some (Layered _ c) => (Ok c, w)
    | Some _ => (Raise (ValueError "Invalid signature"), w)
    end.

(** [img.save(path)] / [img.save(path, "TIFF")] *)
Definition Image_save (path : string) (i : Image) : M unit :=
  fun w => (Ok tt, mkWorld ((path, Picture i) :: files w) (shared w) (synchronized w) (clock w)).

(** [context.share(name)] *)
Definition share (name : string) : M unit :=
  fun w => (Ok tt, mkWorld (files w) (name :: shared w) (synchronized w) (clock w)).

(** [context.synchronize(names)] *)
Definition synchronize (names : list string) : M unit :=
  fun w => (Ok tt, mkWorld (files w) (shared w) (names :: synchronized w) (clock w)).

(** One reading of the clock. *)
Definition tick : M nat :=
  fun w => (Ok (clock w), mkWorld (files w) (shared w) (synchronized w) (S (clock w))).

End Host.
Export Host.

(* ------------------------------------------------------------------ *)
(** ** The processors *)

Module Kotik.

Local Open Scope py_scope.
Local Open Scope string_scope.

(** Input schemes. *)
Record UrlInput := mkUrlInput { url : string }.

Record ImageEnhancementInput := mkImageEnhancementInput {
  fileName : string;
  contrast : float;
  saturation : float
}.

Record ImageFileInput := mkImageFileInput { file_name : string }.

(** A schema-checked input frame is the list of its records. *)
Definition DF (A : Type) := list A.

(** [pd.DataFrame(outputs, columns=[c])] *)
Record DataFrame := mkDataFrame { columns : list string; rows : list (list value) }.

Definition pd_DataFrame (outputs : list string) (cols : list string) : DataFrame :=
  mkDataFrame cols (map (fun o => [VStr o]) outputs).

(** [data.to_dict(orient='records')] *)
Definition to_dict_records (data : DF ImageEnhancementInput) : list dict :=
  map (fun r => [("fileName", VStr (fileName r));
                 ("contrast", VFloat (contrast r));
                 ("saturation", VFloat (saturation r))]) data.

(** The locals of a processor that live across loop iterations. *)
Record locals := mkLocals { filename : local string; outputs : list string }.

Definition entry : locals := mkLocals None [].

(** *** The image work of one row, without the host *)

(** Lines 160-170: the CMYK image of a decoded source.  [alpha] starts as
    [None] and is set only under the mode test; [putalpha] works in place, so
    its result is what [cmyk] holds afterwards. *)
Definition cmyk_of (img : Image) : result Image :=
  match (if mode_eqb (mode_of img) RGBA
         then match getchannel img "A" with
              | Ok a => Ok (Some a)
              | Raise e => Raise e
              end
         else Ok None) with
  | Raise e => Raise e
  | Ok alpha =>
      let cmyk := convert CMYK img in
      if truthy alpha
      then match alpha with
           | Some a => putalpha cmyk a
           | None => Ok cmyk
           end
      else Ok cmyk
  end.

(** The threshold lambda of line 221. *)
Definition threshold (p : Z) : Z := if (p <? 200)%Z then 255%Z else 0%Z.

(** Lines 214-227: the underbase image of an RGBA image. *)
Definition underbase_of (img : Image) : result Image :=
  let grayscale := convert L img in
  match getitem (split img) 3 with
  | Raise e => Raise e
  | Ok alpha =>
      let underbase := point threshold grayscale in
      match merge LA [underbase; alpha] with
      | Raise e => Raise e
      | Ok underbase => Ok (convert RGBA underbase)
      end
  end.

Section Processors.

(** The collaborators the module imports. *)
Variable APP_DIR : string.
(** [datetime.now().strftime("%Y%m%d_%H%M%S_%f")] at the n-th reading. *)
Variable strftime_now : nat -> string.
(** [QRCode(version=1, ERROR_CORRECT_L, box_size=10, border=4)], [add_data],
    [make(fit=True)], [make_image(fill_color="black", back_color="white")]. *)
Variable qr_make_image : string -> result Image.
(** The degenerate images of [ImageEnhance.Contrast] and [ImageEnhance.Color]. *)
Variable contrast_degenerate : Image -> result Image.
Variable color_degenerate : Image -> result Image.
(** [Image.blend] for a factor other than 0.0 and 1.0. *)
Variable blend_interp : Image -> Image -> float -> Image.

(** [Image.blend(im1, im2, alpha)] *)
Definition blend (im1 im2 : Image) (alpha : value) : result Image :=
  match alpha with
  | VStr _ => Raise (TypeError "must be real number, not str")
  | VFloat a =>
      Ok (if PrimFloat.eqb a 0%float then im1
          else if PrimFloat.eqb a 1%float then im2
          else blend_interp im1 im2 a)
  end.

(** [ImageEnhance.Contrast(img).enhance(factor)] *)
Definition Contrast_enhance (img : Image) (factor : value) : result Image :=
  match contrast_degenerate img with
  | Raise e => Raise e
  | Ok degenerate => blend degenerate img factor
  end.

(** [ImageEnhance.Color(img).enhance(factor)] *)
Definition Color_enhance (img : Image) (factor : value) : result Image :=
  match color_degenerate img with
  | Raise e => Raise e
  | Ok degenerate => blend degenerate img factor
  end.

(** Lines 106-112. *)
Definition enhanced_of (img : Image) (contrast saturation : value) : result Image :=
  match Contrast_enhance img contrast with
  | Raise e => Raise e
  | Ok img => Color_enhance img saturation
  end.

(** Save under APP_DIR, share, synchronize, append: the tail of every loop body. *)
Definition publish (st : locals) (name : string) (img : Image) : M locals :=
  Image_save (path_join APP_DIR name) img ;;;
  share name ;;;
  synchronize [name] ;;;
  ret (mkLocals (Some name) (outputs st ++ [name])).

(** Lines 36-63. *)
Definition generate_qr_code_body (url : string) (st : locals) : M locals :=
  img <- lift (qr_make_image url) ;;
  n <- tick ;;
  let timestamp := strftime_now n in
  let filename := "qrcode_" ++ timestamp ++ ".png" in
  publish st filename img.

Definition generate_qr_code (data : DF UrlInput) : M DataFrame :=
  st <- for_each generate_qr_code_body (map url data) entry ;;
  ret (pd_DataFrame (outputs st) ["qr_code"]).

(** Lines 100-104. *)
Definition open_as_RGBA (fileName : string) : M Image :=
  if endswith (lower fileName) ".psd"
  then (c <- PSDImage_open_composite fileName ;; ret (convert RGBA c))
  else (i <- Image_open fileName ;; ret (convert RGBA i)).

(** Lines 98-125.  The loop iterates over dicts, so the three targets are
    bound to the keys of each record. *)
Definition enhance_image_body (record : dict) (st : locals) : M locals :=
  '(fileName, contrast, saturation) <- lift (unpack3 (keys record)) ;;
  img <- open_as_RGBA fileName ;;
  img <- lift (enhanced_of img (VStr contrast) (VStr saturation)) ;;
  previous <- lift (read_local "filename" (filename st)) ;;
  let filename := previous ++ "_enhanced.tiff" in
  publish st filename img.

Definition enhance_image (data : DF ImageEnhancementInput) : M DataFrame :=
  st <- for_each enhance_image_body (to_dict_records data) entry ;;
  ret (pd_DataFrame (outputs st) ["enhanced_image"]).

(** Lines 158-170. *)
Definition open_as_cmyk (fileName : string) : M Image :=
  img <- Image_open fileName ;;
  lift (cmyk_of img).

(** Lines 156-183. *)
Definition convert_to_cmyk_body (fileName : string) (st : locals) : M locals :=
  cmyk <- open_as_cmyk fileName ;;
  previous <- lift (read_local "filename" (filename st)) ;;
  let filename := previous ++ "_CMYK.tiff" in
  publish st filename cmyk.

Definition convert_to_cmyk (data : DF ImageFileInput) : M DataFrame :=
  st <- for_each convert_to_cmyk_body (map file_name data) entry ;;
  ret (pd_DataFrame (outputs st) ["cmyk_image"]).

(** Lines 210-240. *)
Definition extract_white_underbase_body (fileName : string) (st : locals) : M locals :=
  i <- Image_open fileName ;;
  let img := convert RGBA i in
  underbase <- lift (underbase_of img) ;;
  previous <- lift (read_local "filename" (filename st)) ;;
  let filename := previous ++ "_underbase.tiff" in
  publish st filename underbase.

Definition extract_white_underbase (data : DF ImageFileInput) : M DataFrame :=
  st <- for_each extract_white_underbase_body (map file_name data) entry ;;
  ret (pd_DataFrame (outputs st) ["underbase_image"]).

End Processors.

End Kotik.
Export Kotik.

(* ------------------------------------------------------------------ *)
(** ** Vocabulary of the statements *)

Module Readings.

Local Open Scope Z_scope.

(** The alpha plane of an image that has one. *)
Definition alpha_plane (r : raster) : option (list Z) :=
  match r with
  | PxLA d => Some (map snd d)
  | PxRGBA d => Some (map snd d)
  | _ => None
  end.

(** What the pipeline of lines 214-227 makes of one RGBA pixel. *)
Definition mask_pixel (p : Z * Z * Z * Z) : Z * Z * Z * Z :=
  let '(r, g, b, a) := p in
  let m := threshold (L24 r g b) in (m, m, m, a).

(** The reading of the mask the specification gives: below the threshold a
    pixel is opaque white, otherwise it is transparent. *)
Definition opaque_white_or_transparent : Prop :=
  forall (img out : Image) (n : nat) (l : Z) (px : Z * Z * Z * Z),
    mode_of img = RGBA ->
    underbase_of img = Ok out ->
    nth_error (to_L (im img)) n = Some l ->
    nth_error (to_RGBA (im out)) n = Some px ->
    if l <? 200 then px = (255, 255, 255, 255) else snd px = 0.

(** The reading of the specification: whenever the source has an alpha
    channel, the result carries that same channel and is a CMYK image. *)
Definition alpha_kept_in_CMYK : Prop :=
  forall (img alpha : Image),
    getchannel img "A" = Ok alpha ->
    exists out,
      cmyk_of img = Ok out /\ getchannel out "A" = Ok alpha /\ mode_of out = CMYK.

(** A run of a loop that completes: row by row, each body execution
    succeeds and appends exactly one name to [outputs]. *)
Inductive runs {R} (body : R -> locals -> M locals)
  : list R -> locals -> World -> list string -> locals -> World -> Prop :=
| runs_nil st w : runs body [] st w [] st w
| runs_cons r rs st w st1 w1 name names st' w' :
    body r st w = (Ok st1, w1) ->
    outputs st1 = outputs st ++ [name] ->
    runs body rs st1 w1 names st' w' ->
    runs body (r :: rs) st w (name :: names) st' w'.

End Readings.
Export Readings.

(* ------------------------------------------------------------------ *)
(** ** Sample data *)

Module Samples.

Local Open Scope Z_scope.
Local Open Scope string_scope.
Local Open Scope list_scope.

(** One opaque white pixel. *)
Definition white_dot : Image := mkImage (1, 1)%nat (PxRGBA [(255, 255, 255, 255)]).

(** A dark pixel and a bright pixel, both partly transparent. *)
Definition two_tone : Image :=
  mkImage (2, 1)%nat (PxRGBA [(10, 10, 10, 77); (250, 250, 250, 200)]).

(** One fully transparent black pixel. *)
Definition clear_dark_dot : Image := mkImage (1, 1)%nat (PxRGBA [(0, 0, 0, 0)]).

(** One half-transparent dark pixel, luminance plus alpha. *)
Definition la_dot : Image := mkImage (1, 1)%nat (PxLA [(10, 128)]).

(** One half-transparent red pixel. *)
Definition rgba_dot : Image := mkImage (1, 1)%nat (PxRGBA [(200, 30, 30, 128)]).

(** One opaque red pixel without an alpha band. *)
Definition rgb_dot : Image := mkImage (1, 1)%nat (PxRGB [(200, 30, 30)]).

(** A sample world: two decodable pictures and one file that is no image. *)
Definition studio : World :=
  mkWorld [("a.png", Picture rgb_dot);
           ("logo.png", Picture rgba_dot);
           ("notes.txt", Garbage)] [] [] 0.

(** The same pictures in a world that has been in use for a while. *)
Definition studio_with_picture : World :=
  mkWorld [("out/b_CMYK.tiff", Picture la_dot);
           ("a.png", Picture rgb_dot)] ["b_CMYK.tiff"] [["b_CMYK.tiff"]] 7.

(** The same world with a picture stored under the name of the first column. *)
Definition studio_with_key_file : World :=
  mkWorld [("fileName", Picture rgba_dot);
           ("logo.png", Picture rgba_dot)] [] [] 0.

(** Stand-ins for the collaborators. *)
Definition sample_dir : string := "/app".

Definition sample_stamp (n : nat) : string :=
  "20240101_120000_00000" ++ String (ascii_of_nat (48 + n)) "".

Definition sample_qr (u : string) : result Image :=
  Ok (mkImage (1, 1)%nat (PxL [Z.of_nat (String.length u)])).

Definition sample_degenerate (i : Image) : result Image := Ok i.

Definition sample_interp (a b : Image) (f : float) : Image := b.

Definition two_urls : DF UrlInput :=
  [mkUrlInput "https://example.com"; mkUrlInput "https://example.org/a"].

End Samples.
Export Samples.

(* ------------------------------------------------------------------ *)
(** ** What a completed QR batch leaves behind *)

Module Traces.

Local Open Scope string_scope.
Local Open Scope list_scope.

(** The name line 52 gives to the file of the clock reading [n]. *)
Definition qr_name (stamp : nat -> string) (n : nat) : string :=
  "qrcode_" ++ stamp n ++ ".png".

(** The names of [k] rows processed from clock reading [c] on. *)
Definition qr_names (stamp : nat -> string) (c k : nat) : list string :=
  map (qr_name stamp) (seq c k).

(** The world after the rows whose images are [imgs] have been saved, shared
    and synchronized one after the other, starting in [w]. *)
Definition qr_world (dir : string) (stamp : nat -> string) (w : World)
  (imgs : list Image) : World :=
  let names := qr_names stamp (clock w) (List.length imgs) in
  mkWorld (rev (combine (map (path_join dir) names) (map Picture imgs)) ++ files w)
          (rev names ++ shared w)
          (rev (map (fun n => [n]) names) ++ synchronized w)
          (clock w + List.length imgs).

(** Every URL of the list is encoded, to the image at the same position. *)
Definition encoded (qr : string -> result Image) (urls : list string)
  (imgs : list Image) : Prop :=
  Forall2 (fun u i => qr u = Ok i) urls imgs.

(** A band value that fits a byte. *)
Definition is_byte (v : Z) : Prop := (0 <= v <= 255)%Z.

(** The colour bands of an RGBA pixel fit bytes. *)
Definition byte_colours (p : Z * Z * Z * Z) : Prop :=
  let '(r, g, b, _) := p in is_byte r /\ is_byte g /\ is_byte b.

(** The colour bands of a pixel are all 0 or all 255. *)
Definition black_or_white (p : Z * Z * Z * Z) : Prop :=
  let '(r, g, b, _) := p in
  (r = 0 /\ g = 0 /\ b = 0)%Z \/ (r = 255 /\ g = 255 /\ b = 255)%Z.

(** Black for white and white for black, alpha untouched. *)
Definition complement (p : Z * Z * Z * Z) : Z * Z * Z * Z :=
  let '(r, g, b, a) := p in (255 - r, 255 - g, 255 - b, a)%Z.

(** An encoder with a capacity: it refuses payloads over 20 characters. *)
Definition small_qr (u : string) : result Image :=
  if Nat.leb (String.length u) 20
  then Ok (mkImage (1, 1)%nat (PxL [Z.of_nat (String.length u)]))
  else Raise DataOverflowError.

(** A clock that formats every reading alike. *)
Definition frozen_stamp (n : nat) : string := "20240101_120000_000000".

End Traces.
Export Traces.

(* ------------------------------------------------------------------ *)
(** ** Facts about the Pillow calls *)

Module PILFacts.

Local Open Scope Z_scope.

Lemma size_eqb_refl (s : nat * nat) : size_eqb s s = true.
Proof.
  unfold size_eqb. now rewrite !Nat.eqb_refl.
Qed.

Lemma mode_eqb_spec (a b : mode) : mode_eqb a b = true <-> a = b.
Proof.
  destruct a, b; simpl; split; intro H; try reflexivity; discriminate H.
Qed.

Lemma fourth_is_snd (d : list (Z * Z * Z * Z)) :
  map (fun '(_, _, _, e) => e) d = map snd d.
Proof.
  apply map_ext. now intros [[[? ?] ?] ?].
Qed.

Lemma getchannel_A_RGBA (sz : nat * nat) (d : list (Z * Z * Z * Z)) :
  getchannel (mkImage sz (PxRGBA d)) "A" = Ok (mkImage sz (PxL (map snd d))).
Proof.
  unfold getchannel, getitem; simpl. now rewrite fourth_is_snd.
Qed.

Lemma getchannel_A_LA (sz : nat * nat) (d : list (Z * Z)) :
  getchannel (mkImage sz (PxLA d)) "A" = Ok (mkImage sz (PxL (map snd d))).
Proof.
  reflexivity.
Qed.

Lemma split_3_RGBA (sz : nat * nat) (d : list (Z * Z * Z * Z)) :
  getitem (split (mkImage sz (PxRGBA d))) 3 = Ok (mkImage sz (PxL (map snd d))).
Proof.
  unfold getitem; simpl. now rewrite fourth_is_snd.
Qed.

Lemma snd_combine_map {A B C} (f : A -> B) (g : A -> C) (d : list A) :
  map snd (combine (map f d) (map g d)) = map g d.
Proof.
  induction d as [|a d IH]; simpl; [reflexivity | now rewrite IH].
Qed.

End PILFacts.
Import PILFacts.

(* ------------------------------------------------------------------ *)
(** ** extract_white_underbase: the mask of one row *)

Module Underbase.

Local Open Scope Z_scope.

Lemma mask_combine (d : list (Z * Z * Z * Z)) :
  map (fun '(l, a) => (l, l, l, a))
      (combine (map threshold (map (fun '(r, g, b, _) => L24 r g b) d)) (map snd d))
  = map mask_pixel d.
Proof.
  induction d as [|[[[r g] b] a] d IH]; simpl; [reflexivity | now rewrite IH].
Qed.

(** The pipeline never raises on an RGBA image, and its result is the
    pixel-wise mask. *)
Lemma underbase_of_RGBA (sz : nat * nat) (d : list (Z * Z * Z * Z)) :
  underbase_of (mkImage sz (PxRGBA d)) = Ok (mkImage sz (PxRGBA (map mask_pixel d))).
Proof.
  unfold underbase_of. rewrite split_3_RGBA.
  unfold merge, point, convert; simpl.
  rewrite size_eqb_refl; simpl.
  now rewrite mask_combine.
Qed.

Lemma underbase_of_normalised (i : Image) :
  underbase_of (convert RGBA i) =
  Ok (mkImage (size i) (PxRGBA (map mask_pixel (to_RGBA (im i))))).
Proof.
  unfold convert; simpl. apply underbase_of_RGBA.
Qed.

Lemma alpha_mask (d : list (Z * Z * Z * Z)) : map snd (map mask_pixel d) = map snd d.
Proof.
  rewrite map_map. apply map_ext. now intros [[[? ?] ?] ?].
Qed.

Example underbase_white_dot :
  underbase_of white_dot = Ok (mkImage (1, 1)%nat (PxRGBA [(0, 0, 0, 255)])).
Proof. reflexivity. Qed.

Example underbase_clear_dark_dot :
  underbase_of clear_dark_dot = Ok (mkImage (1, 1)%nat (PxRGBA [(255, 255, 255, 0)])).
Proof. reflexivity. Qed.

(** C2, as stated, fails: a bright opaque pixel comes out opaque black, not
    transparent (and a dark transparent pixel comes out white but still
    transparent). *)
Lemma underbase_not_opaque_white_or_transparent : ~ opaque_white_or_transparent.
Proof.
  intro H.
  specialize (H white_dot _ O 255 (0, 0, 0, 255) eq_refl underbase_white_dot eq_refl eq_refl).
  simpl in H. discriminate H.
Qed.

(** C2, amended: for every pixel of the RGBA image a row works on, the
    pipeline yields an RGBA mask in which that pixel is white when its
    luminance is strictly below 200 and black otherwise, and in both cases
    keeps the alpha value the pixel has in the source. *)
Theorem underbase_mask_white_below_threshold (i : Image) (n : nat) (l a : Z) :
  nth_error (to_L (im (convert RGBA i))) n = Some l ->
  nth_error (map snd (to_RGBA (im (convert RGBA i)))) n = Some a ->
  exists out,
    underbase_of (convert RGBA i) = Ok out /\
    mode_of out = RGBA /\
    nth_error (to_RGBA (im out)) n =
    Some (if l <? 200 then (255, 255, 255, a) else (0, 0, 0, a)).
Proof.
  intros Hl Ha.
  eexists. split; [apply underbase_of_normalised|]. split; [reflexivity|].
  simpl in *.
  rewrite nth_error_map in Hl, Ha |- *.
  destruct (nth_error (to_RGBA (im i)) n) as [[[[r g] b] a']|]; simpl in *; [|discriminate].
  injection Hl as <-. injection Ha as <-.
  unfold threshold. now destruct (L24 r g b <? 200).
Qed.

Lemma underbase_mask_white_below_threshold_witness :
  exists out,
    underbase_of (convert RGBA two_tone) = Ok out /\
    mode_of out = RGBA /\
    nth_error (to_RGBA (im out)) 1 = Some (0, 0, 0, 200).
Proof.
  apply (underbase_mask_white_below_threshold two_tone 1 250 200); reflexivity.
Defined.

(** C5: the alpha channel of the underbase image is the alpha channel of the
    RGBA image it was computed from, and that is the source file's own alpha
    channel when the decoded source has one. *)
Theorem underbase_alpha_is_source_alpha (i : Image) :
  exists out,
    underbase_of (convert RGBA i) = Ok out /\
    size out = size i /\
    getchannel out "A" = getchannel (convert RGBA i) "A" /\
    match mode_of i with
    | LA | RGBA => getchannel out "A" = getchannel i "A"
    | _ => True
    end.
Proof.
  eexists. split; [apply underbase_of_normalised|]. split; [reflexivity|].
  unfold convert; simpl. rewrite !getchannel_A_RGBA, alpha_mask.
  split; [reflexivity|].
  destruct i as [sz [d|d|d|d|d]]; simpl; trivial.
  - unfold mode_of; simpl. rewrite getchannel_A_LA. do 3 f_equal.
    rewrite map_map. apply map_ext. now intros [? ?].
  - unfold mode_of; simpl. now rewrite getchannel_A_RGBA.
Qed.

End Underbase.

(* ------------------------------------------------------------------ *)
(** ** convert_to_cmyk: the image of one row *)

Module Cmyk.

Local Open Scope Z_scope.

Example cmyk_of_la_dot :
  cmyk_of la_dot = Ok (mkImage (1, 1)%nat (PxCMYK [(0, 0, 0, 245)])).
Proof. reflexivity. Qed.

Example cmyk_of_rgb_dot :
  cmyk_of rgb_dot = Ok (mkImage (1, 1)%nat (PxCMYK [(55, 225, 225, 0)])).
Proof. reflexivity. Qed.

(** Putting the alpha back promotes the CMYK image to RGBA. *)
Example cmyk_of_rgba_dot :
  cmyk_of rgba_dot = Ok (mkImage (1, 1)%nat (PxRGBA [(200, 30, 30, 128)])).
Proof. reflexivity. Qed.

Lemma cmyk_of_RGBA (sz : nat * nat) (d : list (Z * Z * Z * Z)) :
  cmyk_of (mkImage sz (PxRGBA d)) =
  Ok (mkImage sz
        (PxRGBA (combine (map (fun '(r, g, b, _) => cmyk2rgb (rgb2cmyk r g b)) d)
                         (map snd d)))).
Proof.
  unfold cmyk_of.
  change (mode_eqb (mode_of (mkImage sz (PxRGBA d))) RGBA) with true; cbv iota.
  rewrite getchannel_A_RGBA.
  cbn -[cmyk2rgb rgb2cmyk]. unfold putalpha.
  cbn -[cmyk2rgb rgb2cmyk]. rewrite size_eqb_refl.
  cbn -[cmyk2rgb rgb2cmyk].
  do 4 f_equal. rewrite !map_map. apply map_ext.
  intros [[[r g] b] a]. unfold opaque.
  now destruct (cmyk2rgb (rgb2cmyk r g b)) as [[? ?] ?].
Qed.

Lemma cmyk_of_other (img : Image) :
  mode_of img <> RGBA -> cmyk_of img = Ok (convert CMYK img).
Proof.
  intro H. unfold cmyk_of.
  destruct (mode_eqb (mode_of img) RGBA) eqn:E; [|reflexivity].
  apply mode_eqb_spec in E. contradiction.
Qed.

(** The image work of a row never raises. *)
Lemma cmyk_of_total (img : Image) : exists out, cmyk_of img = Ok out.
Proof.
  destruct img as [sz r].
  destruct r as [d|d|d|d|d];
    try (eexists; apply cmyk_of_other; unfold mode_of; simpl; discriminate).
  eexists. apply cmyk_of_RGBA.
Qed.

(** C4, as stated, fails: a luminance+alpha source comes out as plain CMYK,
    with no alpha channel at all. *)
Lemma cmyk_alpha_not_kept_in_CMYK : ~ alpha_kept_in_CMYK.
Proof.
  intro H.
  destruct (H la_dot _ (getchannel_A_LA _ _)) as [out [Hout [Ha _]]].
  rewrite cmyk_of_la_dot in Hout. injection Hout as <-.
  discriminate Ha.
Qed.

(** C4, amended: for a source decoded in mode RGBA the alpha channel is taken
    out before the conversion to CMYK and put back afterwards, and the alpha
    channel of the resulting image is the alpha channel of the source. *)
Theorem cmyk_alpha_of_RGBA_source_kept (img : Image) :
  mode_of img = RGBA ->
  exists alpha out,
    getchannel img "A" = Ok alpha /\
    cmyk_of img = putalpha (convert CMYK img) alpha /\
    cmyk_of img = Ok out /\
    size out = size img /\
    getchannel out "A" = Ok alpha.
Proof.
  destruct img as [sz [d|d|d|d|d]]; unfold mode_of; simpl; try discriminate.
  intros _. do 2 eexists.
  split; [apply getchannel_A_RGBA|].
  split.
  - rewrite cmyk_of_RGBA. unfold putalpha, convert.
    cbn -[cmyk2rgb rgb2cmyk]. rewrite size_eqb_refl.
    cbn -[cmyk2rgb rgb2cmyk]. do 4 f_equal.
    rewrite !map_map. apply map_ext. intros [[[r g] b] a]. unfold opaque.
    now destruct (cmyk2rgb (rgb2cmyk r g b)) as [[? ?] ?].
  - split; [apply cmyk_of_RGBA|]. split; [reflexivity|].
    rewrite getchannel_A_RGBA. do 3 f_equal. apply snd_combine_map.
Qed.

Lemma cmyk_alpha_of_RGBA_source_kept_witness :
  exists alpha out,
    getchannel rgba_dot "A" = Ok alpha /\
    cmyk_of rgba_dot = putalpha (convert CMYK rgba_dot) alpha /\
    cmyk_of rgba_dot = Ok out /\
    size out = size rgba_dot /\
    getchannel out "A" = Ok alpha.
Proof.
  apply (cmyk_alpha_of_RGBA_source_kept rgba_dot). reflexivity.
Defined.

(** C10: a source in any mode other than RGBA is converted to CMYK and
    nothing is put back, whatever transparency it carried: the result is the
    plain conversion, a CMYK image without an alpha channel. *)
Theorem cmyk_alpha_only_for_RGBA (img : Image) :
  mode_of img <> RGBA ->
  cmyk_of img = Ok (convert CMYK img) /\
  mode_of (convert CMYK img) = CMYK /\
  alpha_plane (im (convert CMYK img)) = None /\
  is_ok (getchannel (convert CMYK img) "A") = false.
Proof.
  intro H. split; [now apply cmyk_of_other|]. repeat split.
Qed.

Lemma cmyk_alpha_only_for_RGBA_witness :
  cmyk_of la_dot = Ok (convert CMYK la_dot) /\
  mode_of (convert CMYK la_dot) = CMYK /\
  alpha_plane (im (convert CMYK la_dot)) = None /\
  is_ok (getchannel (convert CMYK la_dot) "A") = false.
Proof.
  apply (cmyk_alpha_only_for_RGBA la_dot). discriminate.
Defined.

Lemma Image_open_world (name : string) (w : World) : snd (Image_open name w) = w.
Proof.
  unfold Image_open. destruct (lookup name (files w)) as [[| |]|]; reflexivity.
Qed.

Lemma open_as_cmyk_decoded (name : string) (w : World) (img : Image) :
  fst (Image_open name w) = Ok img -> open_as_cmyk name w = (cmyk_of img, w).
Proof.
  intro H. unfold open_as_cmyk, bind, lift.
  pose proof (Image_open_world name w) as Hw.
  destruct (Image_open name w) as [r w0]; simpl in *. now subst.
Qed.

(** The conversion of a row depends on nothing but the decoded source.  Two
    runs of it, in whatever worlds, on a file that decodes to the same image
    without alpha give the same image, the plain CMYK conversion, and leave
    their worlds as they were. *)
Theorem cmyk_conversion_deterministic (name : string) (w1 w2 : World) (img : Image) :
  alpha_plane (im img) = None ->
  fst (Image_open name w1) = Ok img ->
  fst (Image_open name w2) = Ok img ->
  open_as_cmyk name w1 = (Ok (convert CMYK img), w1) /\
  open_as_cmyk name w2 = (Ok (convert CMYK img), w2) /\
  fst (open_as_cmyk name w1) = fst (open_as_cmyk name w2).
Proof.
  intros Ha H1 H2.
  assert (Hm : mode_of img <> RGBA).
  { destruct img as [sz [d|d|d|d|d]]; unfold mode_of; simpl in *; discriminate. }
  rewrite (open_as_cmyk_decoded _ _ _ H1), (open_as_cmyk_decoded _ _ _ H2).
  rewrite (cmyk_of_other _ Hm). repeat split.
Qed.

Lemma cmyk_conversion_deterministic_witness :
  open_as_cmyk "a.png" studio = (Ok (convert CMYK rgb_dot), studio) /\
  open_as_cmyk "a.png" studio_with_picture = (Ok (convert CMYK rgb_dot), studio_with_picture) /\
  fst (open_as_cmyk "a.png" studio) = fst (open_as_cmyk "a.png" studio_with_picture).
Proof.
  apply (cmyk_conversion_deterministic "a.png" studio studio_with_picture rgb_dot);
    reflexivity.
Defined.

End Cmyk.


(* ------------------------------------------------------------------ *)
(** ** The loops *)

Module Batch.

Local Open Scope string_scope.
Local Open Scope list_scope.

Lemma runs_length {R} (body : R -> locals -> M locals) rows st w names st' w' :
  runs body rows st w names st' w' -> List.length names = List.length rows.
Proof.
  induction 1; simpl; [reflexivity | now f_equal].
Qed.

Lemma runs_outputs {R} (body : R -> locals -> M locals) rows st w names st' w' :
  runs body rows st w names st' w' -> outputs st' = outputs st ++ names.
Proof.
  induction 1 as [|r rs st w st1 w1 name names st' w' _ Ho _ IH].
  - now rewrite app_nil_r.
  - rewrite IH, Ho, <- app_assoc. reflexivity.
Qed.

Lemma for_each_app {R S} (body : R -> S -> M S) (pre post : list R) (st : S) (w : World) :
  for_each body (pre ++ post) st w =
  match for_each body pre st w with
  | (Ok st', w') => for_each body post st' w'
  | (Raise e, w') => (Raise e, w')
  end.
Proof.
  revert st w. induction pre as [|r pre IH]; intros st w; simpl; [reflexivity|].
  unfold bind. destruct (body r st w) as [[st1|e] w1]; [apply IH | reflexivity].
Qed.

(** The loop stops at the first row whose body raises. *)
Lemma for_each_aborts {R S} (body : R -> S -> M S) pre r post st w st' w' e w'' :
  for_each body pre st w = (Ok st', w') ->
  body r st' w' = (Raise e, w'') ->
  for_each body (pre ++ r :: post) st w = (Raise e, w'').
Proof.
  intros Hpre Hr. rewrite for_each_app, Hpre. simpl. unfold bind. now rewrite Hr.
Qed.

(** A loop whose body appends one name whenever it succeeds appends one name
    per row, in row order, whenever it completes. *)
Lemma for_each_runs {R} (body : R -> locals -> M locals) :
  (forall r st w st' w', body r st w = (Ok st', w') ->
                         exists name, outputs st' = outputs st ++ [name]) ->
  forall rows st w st' w',
    for_each body rows st w = (Ok st', w') ->
    exists names, runs body rows st w names st' w'.
Proof.
  intros Hbody rows. induction rows as [|r rows IH]; intros st w st' w' H; simpl in H.
  - injection H as <- <-. exists []. constructor.
  - unfold bind in H. destruct (body r st w) as [[st1|e] w1] eqn:E; [|discriminate].
    destruct (Hbody _ _ _ _ _ E) as [name Hname].
    apply IH in H. destruct H as [names Hnames].
    exists (name :: names). econstructor; eassumption.
Qed.

Section Bodies.

Variable APP_DIR : string.
Variable strftime_now : nat -> string.
Variable qr_make_image : string -> result Image.
Variable contrast_degenerate : Image -> result Image.
Variable color_degenerate : Image -> result Image.
Variable blend_interp : Image -> Image -> float -> Image.

Lemma publish_appends st name img w :
  exists w', publish APP_DIR st name img w =
             (Ok (mkLocals (Some name) (outputs st ++ [name])), w').
Proof.
  eexists. reflexivity.
Qed.

Lemma publish_one st name img w st' w' :
  publish APP_DIR st name img w = (Ok st', w') ->
  exists n, outputs st' = outputs st ++ [n].
Proof.
  intro H. destruct (publish_appends st name img w) as [w0 E].
  rewrite E in H. injection H as <- _. now exists name.
Qed.

Lemma generate_qr_code_body_one u st w st' w' :
  generate_qr_code_body APP_DIR strftime_now qr_make_image u st w = (Ok st', w') ->
  exists name, outputs st' = outputs st ++ [name].
Proof.
  unfold generate_qr_code_body, bind, lift, tick.
  destruct (qr_make_image u) as [img|e]; [|discriminate].
  apply publish_one.
Qed.

Lemma enhance_image_body_one r st w st' w' :
  enhance_image_body APP_DIR contrast_degenerate color_degenerate blend_interp r st w
  = (Ok st', w') ->
  exists name, outputs st' = outputs st ++ [name].
Proof.
  unfold enhance_image_body, bind, lift.
  destruct (unpack3 (keys r)) as [[[k1 k2] k3]|e]; [|discriminate].
  destruct (open_as_RGBA k1 w) as [[img|e] w1]; [|discriminate].
  destruct (enhanced_of _ _ _ img (VStr k2) (VStr k3)) as [img'|e]; [|discriminate].
  destruct (read_local "filename" (filename st)) as [prev|e]; [|discriminate].
  apply publish_one.
Qed.

Lemma convert_to_cmyk_body_one name st w st' w' :
  convert_to_cmyk_body APP_DIR name st w = (Ok st', w') ->
  exists n, outputs st' = outputs st ++ [n].
Proof.
  unfold convert_to_cmyk_body, bind, lift.
  destruct (open_as_cmyk name w) as [[img|e] w1]; [|discriminate].
  destruct (read_local "filename" (filename st)) as [prev|e]; [|discriminate].
  apply publish_one.
Qed.

Lemma extract_white_underbase_body_one name st w st' w' :
  extract_white_underbase_body APP_DIR name st w = (Ok st', w') ->
  exists n, outputs st' = outputs st ++ [n].
Proof.
  unfold extract_white_underbase_body, bind, lift.
  destruct (Image_open name w) as [[img|e] w1]; [|discriminate].
  destruct (underbase_of (convert RGBA img)) as [u|e]; [|discriminate].
  destruct (read_local "filename" (filename st)) as [prev|e]; [|discriminate].
  apply publish_one.
Qed.

(** What a processor returns is what its loop left in [outputs]. *)
Lemma processor_table {R} (body : R -> locals -> M locals) rows col w table w' :
  bind (for_each body rows entry) (fun st => ret (pd_DataFrame (outputs st) [col])) w
  = (Ok table, w') ->
  exists st', for_each body rows entry w = (Ok st', w') /\
              table = pd_DataFrame (outputs st') [col].
Proof.
  unfold bind, ret. destruct (for_each body rows entry w) as [[st'|e] w1]; [|discriminate].
  intro H. injection H as <- <-. now exists st'.
Qed.

Lemma processor_rows {R} (body : R -> locals -> M locals) rows col w table w' :
  (forall r st w st' w', body r st w = (Ok st', w') ->
                         exists name, outputs st' = outputs st ++ [name]) ->
  bind (for_each body rows entry) (fun st => ret (pd_DataFrame (outputs st) [col])) w
  = (Ok table, w') ->
  exists names st',
    runs body rows entry w names st' w' /\
    Kotik.rows table = map (fun n => [VStr n]) names /\
    List.length (Kotik.rows table) = List.length rows.
Proof.
  intros Hbody H. apply processor_table in H. destruct H as [st' [Hloop ->]].
  apply (for_each_runs body Hbody) in Hloop. destruct Hloop as [names Hruns].
  exists names, st'. split; [exact Hruns|].
  pose proof Hruns as Ho. apply runs_outputs in Ho. simpl in Ho. simpl. rewrite Ho.
  split; [reflexivity|]. rewrite length_map. apply runs_length in Hruns. exact Hruns.
Qed.

End Bodies.

End Batch.

(* ------------------------------------------------------------------ *)
(** ** The processors as a whole *)

Module Processors.

Local Open Scope string_scope.
Local Open Scope list_scope.
Import Batch.

Section Entry.

Variable APP_DIR : string.
Variable strftime_now : nat -> string.
Variable qr_make_image : string -> result Image.
Variable contrast_degenerate : Image -> result Image.
Variable color_degenerate : Image -> result Image.
Variable blend_interp : Image -> Image -> float -> Image.

Local Abbreviation cmyk_body := (convert_to_cmyk_body APP_DIR).
Local Abbreviation underbase_body := (extract_white_underbase_body APP_DIR).
Local Abbreviation enhance_body :=
  (enhance_image_body APP_DIR contrast_degenerate color_degenerate blend_interp).
Local Abbreviation qr_body := (generate_qr_code_body APP_DIR strftime_now qr_make_image).

(** *** One row, from any loop state *)

Lemma cmyk_body_decode_failure name st w e :
  fst (Image_open name w) = Raise e -> cmyk_body name st w = (Raise e, w).
Proof.
  intro H. unfold convert_to_cmyk_body, open_as_cmyk, bind, lift.
  pose proof (Cmyk.Image_open_world name w) as Hw.
  destruct (Image_open name w) as [r w0]; simpl in *. now subst.
Qed.

Lemma underbase_body_decode_failure name st w e :
  fst (Image_open name w) = Raise e -> underbase_body name st w = (Raise e, w).
Proof.
  intro H. unfold extract_white_underbase_body, bind, lift.
  pose proof (Cmyk.Image_open_world name w) as Hw.
  destruct (Image_open name w) as [r w0]; simpl in *. now subst.
Qed.

(** With [filename] unbound, a row whose source decodes stops at the f-string. *)
Lemma cmyk_body_unbound name w img :
  fst (Image_open name w) = Ok img ->
  cmyk_body name entry w = (Raise (UnboundLocalError "filename"), w).
Proof.
  intro H. unfold convert_to_cmyk_body, bind.
  rewrite (Cmyk.open_as_cmyk_decoded _ _ _ H).
  destruct (Cmyk.cmyk_of_total img) as [out ->]. reflexivity.
Qed.

Lemma underbase_body_unbound name w img :
  fst (Image_open name w) = Ok img ->
  underbase_body name entry w = (Raise (UnboundLocalError "filename"), w).
Proof.
  intro H. unfold extract_white_underbase_body, bind, lift.
  pose proof (Cmyk.Image_open_world name w) as Hw.
  destruct (Image_open name w) as [r w0]; simpl in *. subst.
  now rewrite Underbase.underbase_of_normalised.
Qed.

(** With [filename] bound, the name a row publishes is built from the value
    the variable already has; the row's own [fileName] plays no part. *)
Lemma cmyk_body_names_from_previous name prev outs w img :
  fst (Image_open name w) = Ok img ->
  exists cmyk, cmyk_of img = Ok cmyk /\
    cmyk_body name (mkLocals (Some prev) outs) w =
    publish APP_DIR (mkLocals (Some prev) outs) (prev ++ "_CMYK.tiff") cmyk w.
Proof.
  intro H. destruct (Cmyk.cmyk_of_total img) as [out Hout].
  exists out. split; [exact Hout|].
  unfold convert_to_cmyk_body, bind.
  rewrite (Cmyk.open_as_cmyk_decoded _ _ _ H), Hout. reflexivity.
Qed.

Lemma cmyk_body_entry_raises name w :
  exists e, cmyk_body name entry w = (Raise e, w).
Proof.
  destruct (fst (Image_open name w)) as [img|e] eqn:E.
  - eexists. eapply cmyk_body_unbound; eassumption.
  - exists e. now apply cmyk_body_decode_failure.
Qed.

Lemma underbase_body_entry_raises name w :
  exists e, underbase_body name entry w = (Raise e, w).
Proof.
  destruct (fst (Image_open name w)) as [img|e] eqn:E.
  - eexists. eapply underbase_body_unbound; eassumption.
  - exists e. now apply underbase_body_decode_failure.
Qed.

(** A string is never accepted as an enhancement factor. *)
Lemma enhanced_of_str img c s :
  exists e, enhanced_of contrast_degenerate color_degenerate blend_interp
              img (VStr c) s = Raise e.
Proof.
  unfold enhanced_of, Contrast_enhance.
  destruct (contrast_degenerate img) as [deg|e]; eexists; reflexivity.
Qed.

(** The enhancement itself leaves an image alone at factor 1.0. *)
Lemma enhanced_of_unit_factors img d1 d2 :
  contrast_degenerate img = Ok d1 -> color_degenerate img = Ok d2 ->
  enhanced_of contrast_degenerate color_degenerate blend_interp
    img (VFloat 1%float) (VFloat 1%float) = Ok img.
Proof.
  intros H1 H2. unfold enhanced_of, Contrast_enhance, Color_enhance, blend.
  rewrite H1. simpl. now rewrite H2.
Qed.

(** The record of a row, whatever the row holds, binds the loop targets to
    the three column names. *)
Lemma enhance_body_opens_key (r : ImageEnhancementInput) st w :
  exists e,
    enhance_body [("fileName", VStr (fileName r)); ("contrast", VFloat (contrast r));
                  ("saturation", VFloat (saturation r))] st w = (Raise e, w) /\
    (forall e0, fst (Image_open "fileName" w) = Raise e0 -> e = e0).
Proof.
  unfold enhance_image_body, bind, lift. simpl.
  unfold open_as_RGBA.
  change (endswith (lower "fileName") ".psd") with false. cbv iota.
  unfold bind, ret.
  pose proof (Cmyk.Image_open_world "fileName" w) as Hw.
  destruct (Image_open "fileName" w) as [[i|e] w0]; simpl in Hw; subst w0.
  - destruct (enhanced_of_str (convert RGBA i) "contrast" (VStr "saturation")) as [e He].
    rewrite He. exists e. split; [reflexivity|]. intros e0 H0. discriminate H0.
  - exists e. split; [reflexivity|]. intros e0 H0. simpl in H0. now injection H0.
Qed.

(** A QR row saves the image the encoder made of the row's own URL, under the
    name it then shares, synchronizes and appends. *)
Lemma qr_body_saves_encoded_url u st w img :
  qr_make_image u = Ok img ->
  let name := ("qrcode_" ++ strftime_now (clock w) ++ ".png")%string in
  qr_body u st w =
  (Ok (mkLocals (Some name) (outputs st ++ [name])),
   mkWorld ((path_join APP_DIR name, Picture img) :: files w)
           (name :: shared w) ([name] :: synchronized w) (S (clock w))).
Proof.
  intro H. unfold generate_qr_code_body, bind, lift. rewrite H. reflexivity.
Qed.

(** *** Whole batches *)

Lemma raise_through_table {R} (body : R -> locals -> M locals) r rest col w e w' :
  body r entry w = (Raise e, w') ->
  bind (for_each body (r :: rest) entry)
       (fun st => ret (pd_DataFrame (outputs st) [col])) w = (Raise e, w').
Proof.
  intro H. simpl. unfold bind. now rewrite H.
Qed.

Lemma convert_to_cmyk_nonempty r rest w :
  exists e, convert_to_cmyk APP_DIR (r :: rest) w = (Raise e, w).
Proof.
  destruct (cmyk_body_entry_raises (file_name r) w) as [e He].
  exists e. unfold convert_to_cmyk. simpl map. now apply raise_through_table.
Qed.

Lemma extract_white_underbase_nonempty r rest w :
  exists e, extract_white_underbase APP_DIR (r :: rest) w = (Raise e, w).
Proof.
  destruct (underbase_body_entry_raises (file_name r) w) as [e He].
  exists e. unfold extract_white_underbase. simpl map. now apply raise_through_table.
Qed.

Lemma enhance_image_nonempty r rest w :
  exists e,
    enhance_image APP_DIR contrast_degenerate color_degenerate blend_interp (r :: rest) w
    = (Raise e, w).
Proof.
  destruct (enhance_body_opens_key r entry w) as [e [He _]].
  exists e. unfold enhance_image. simpl to_dict_records. now apply raise_through_table.
Qed.

(** *** The claims about whole batches *)

(** C1: on a one-row table whose picture decodes, [convert_to_cmyk] and
    [extract_white_underbase] read the local [filename] before anything has
    been assigned to it: the call ends in UnboundLocalError and no file named
    after the row's [fileName] is written, shared or returned. *)
Theorem filename_read_before_assignment :
  convert_to_cmyk APP_DIR [mkImageFileInput "a.png"] studio
  = (Raise (UnboundLocalError "filename"), studio) /\
  extract_white_underbase APP_DIR [mkImageFileInput "a.png"] studio
  = (Raise (UnboundLocalError "filename"), studio).
Proof.
  split.
  - unfold convert_to_cmyk. simpl map. apply raise_through_table.
    now apply cmyk_body_unbound with (img := rgb_dot).
  - unfold extract_white_underbase. simpl map. apply raise_through_table.
    now apply underbase_body_unbound with (img := rgb_dot).
Qed.

(** C3: on the row (logo.png, 1.0, 1.0) [enhance_image] does not open
    logo.png and does not use the row's factors: the loop targets hold the
    column names, so it opens a file called fileName, and where that file
    exists it hands the string contrast to the enhancer; either way the call
    raises and nothing is saved. *)
Theorem enhance_image_binds_column_names :
  enhance_image APP_DIR contrast_degenerate color_degenerate blend_interp
    [mkImageEnhancementInput "logo.png" 1%float 1%float] studio
  = (Raise (FileNotFoundError "fileName"), studio) /\
  exists e,
    enhance_image APP_DIR contrast_degenerate color_degenerate blend_interp
      [mkImageEnhancementInput "logo.png" 1%float 1%float] studio_with_key_file
    = (Raise e, studio_with_key_file).
Proof.
  split; [reflexivity | apply enhance_image_nonempty].
Qed.

(** Whenever a processor returns a table, the table has one row per input
    row, and the rows are, in input order, the names that the loop body
    appended while it went through the input rows one after the other.  For
    the three image processors a table is returned for the empty table only
    (see [NoOutput] below). *)
Theorem one_output_row_per_input_row (w w' : World) (table : DataFrame) :
  (forall data,
      generate_qr_code APP_DIR strftime_now qr_make_image data w = (Ok table, w') ->
      exists names st',
        runs qr_body (map url data) entry w names st' w' /\
        rows table = map (fun n => [VStr n]) names /\
        List.length (rows table) = List.length data) /\
  (forall data,
      enhance_image APP_DIR contrast_degenerate color_degenerate blend_interp data w
      = (Ok table, w') ->
      exists names st',
        runs enhance_body (to_dict_records data) entry w names st' w' /\
        rows table = map (fun n => [VStr n]) names /\
        List.length (rows table) = List.length data) /\
  (forall data,
      convert_to_cmyk APP_DIR data w = (Ok table, w') ->
      exists names st',
        runs cmyk_body (map file_name data) entry w names st' w' /\
        rows table = map (fun n => [VStr n]) names /\
        List.length (rows table) = List.length data) /\
  (forall data,
      extract_white_underbase APP_DIR data w = (Ok table, w') ->
      exists names st',
        runs underbase_body (map file_name data) entry w names st' w' /\
        rows table = map (fun n => [VStr n]) names /\
        List.length (rows table) = List.length data).
Proof.
  repeat split; intros data H.
  - unfold generate_qr_code in H.
    eapply processor_rows in H;
      [| intros; eapply generate_qr_code_body_one; eassumption].
    now rewrite length_map in H.
  - unfold enhance_image in H.
    eapply processor_rows in H;
      [| intros; eapply enhance_image_body_one; eassumption].
    unfold to_dict_records in H at 2. now rewrite length_map in H.
  - unfold convert_to_cmyk in H.
    eapply processor_rows in H;
      [| intros; eapply convert_to_cmyk_body_one; eassumption].
    now rewrite length_map in H.
  - unfold extract_white_underbase in H.
    eapply processor_rows in H;
      [| intros; eapply extract_white_underbase_body_one; eassumption].
    now rewrite length_map in H.
Qed.

(** C8: when the file a row opens cannot be decoded, the loop stops at that
    row with the decoder's exception and with the world as the rows before it
    left it; the processor hands that exception to its caller and returns no
    table.  For [enhance_image] the file a row opens is the one called
    fileName. *)
Theorem decode_failure_aborts_batch (name : string) (w : World) (e : exn) :
  fst (Image_open name w) = Raise e ->
  (forall pre post st st' w0,
      for_each cmyk_body pre st w0 = (Ok st', w) ->
      for_each cmyk_body (pre ++ name :: post) st w0 = (Raise e, w)) /\
  (forall pre post st st' w0,
      for_each underbase_body pre st w0 = (Ok st', w) ->
      for_each underbase_body (pre ++ name :: post) st w0 = (Raise e, w)) /\
  (forall post,
      convert_to_cmyk APP_DIR (mkImageFileInput name :: post) w = (Raise e, w)) /\
  (forall post,
      extract_white_underbase APP_DIR (mkImageFileInput name :: post) w = (Raise e, w)) /\
  (forall pre post, exists e',
      convert_to_cmyk APP_DIR (pre ++ mkImageFileInput name :: post) w = (Raise e', w)) /\
  (forall pre post, exists e',
      extract_white_underbase APP_DIR (pre ++ mkImageFileInput name :: post) w
      = (Raise e', w)) /\
  (forall pre post c s, exists e',
      enhance_image APP_DIR contrast_degenerate color_degenerate blend_interp
        (pre ++ mkImageEnhancementInput name c s :: post) w = (Raise e', w)) /\
  (name = "fileName" ->
   forall r post,
     enhance_image APP_DIR contrast_degenerate color_degenerate blend_interp
       (r :: post) w = (Raise e, w)).
Proof.
  intro H. repeat split.
  - intros pre post st st' w0 Hpre. eapply for_each_aborts; [exact Hpre|].
    now apply cmyk_body_decode_failure.
  - intros pre post st st' w0 Hpre. eapply for_each_aborts; [exact Hpre|].
    now apply underbase_body_decode_failure.
  - intro post. unfold convert_to_cmyk. simpl map. apply raise_through_table.
    now apply cmyk_body_decode_failure.
  - intro post. unfold extract_white_underbase. simpl map. apply raise_through_table.
    now apply underbase_body_decode_failure.
  - intros [|r pre] post; simpl app; apply convert_to_cmyk_nonempty.
  - intros [|r pre] post; simpl app; apply extract_white_underbase_nonempty.
  - intros [|r pre] post c s; simpl app; apply enhance_image_nonempty.
  - intros -> r post.
    destruct (enhance_body_opens_key r entry w) as [e1 [He1 Heq]].
    rewrite (Heq _ H) in He1.
    unfold enhance_image. simpl to_dict_records. now apply raise_through_table.
Qed.

End Entry.

Lemma one_output_row_per_input_row_witness :
  exists table w',
    generate_qr_code sample_dir sample_stamp sample_qr two_urls studio = (Ok table, w') /\
    exists names st',
      runs (generate_qr_code_body sample_dir sample_stamp sample_qr)
           (map url two_urls) entry studio names st' w' /\
      rows table = map (fun n => [VStr n]) names /\
      List.length (rows table) = List.length two_urls.
Proof.
  do 2 eexists. split; [reflexivity|].
  apply (proj1 (one_output_row_per_input_row sample_dir sample_stamp sample_qr
                  sample_degenerate sample_degenerate sample_interp studio _ _) two_urls).
  reflexivity.
Defined.

Lemma decode_failure_aborts_batch_witness :
  convert_to_cmyk sample_dir [mkImageFileInput "notes.txt"; mkImageFileInput "a.png"] studio
  = (Raise (UnidentifiedImageError "notes.txt"), studio).
Proof.
  apply (decode_failure_aborts_batch sample_dir sample_degenerate
           sample_degenerate sample_interp "notes.txt" studio
           (UnidentifiedImageError "notes.txt")).
  reflexivity.
Defined.

End Processors.

(* ------------------------------------------------------------------ *)
(** ** generate_qr_code: whole batches *)

Module QRBatch.

Local Open Scope list_scope.
Local Open Scope string_scope.
Import Batch.

Lemma append_inv_head (a b c : string) : a ++ b = a ++ c -> b = c.
Proof.
  induction a as [|x a IH]; simpl; intro H; [exact H|].
  injection H as H. now apply IH.
Qed.

Lemma append_length (a b : string) :
  String.length (a ++ b) = String.length a + String.length b.
Proof.
  induction a as [|x a IH]; simpl; [reflexivity | now rewrite IH].
Qed.

Lemma append_inv_tail (a b t : string) : a ++ t = b ++ t -> a = b.
Proof.
  revert b. induction a as [|x a IH]; intros [|y b] H; simpl in H.
  - reflexivity.
  - apply (f_equal String.length) in H. simpl in H. rewrite append_length in H. lia.
  - apply (f_equal String.length) in H. simpl in H. rewrite append_length in H. lia.
  - injection H as -> H. f_equal. now apply IH.
Qed.

Lemma qr_name_inj (stamp : nat -> string) (n m : nat) :
  qr_name stamp n = qr_name stamp m -> stamp n = stamp m.
Proof.
  unfold qr_name. intro H. apply append_inv_head in H. now apply append_inv_tail in H.
Qed.

(** Under one directory, two QR names give one path only if they are equal. *)
Lemma qr_path_inj (dir : string) (stamp : nat -> string) (n m : nat) :
  path_join dir (qr_name stamp n) = path_join dir (qr_name stamp m) ->
  qr_name stamp n = qr_name stamp m.
Proof.
  unfold path_join, qr_name.
  change (startswith ("qrcode_" ++ stamp n ++ ".png") "/") with false.
  change (startswith ("qrcode_" ++ stamp m ++ ".png") "/") with false.
  cbv iota.
  destruct (String.eqb dir "" || endswith dir "/")%bool; intro H.
  - now apply append_inv_head in H.
  - apply append_inv_head in H. now apply (append_inv_head "/") in H.
Qed.

Lemma encoded_length qr urls imgs :
  encoded qr urls imgs -> List.length imgs = List.length urls.
Proof.
  induction 1; simpl; [reflexivity | now f_equal].
Qed.

Lemma qr_world_nil dir stamp w : qr_world dir stamp w [] = w.
Proof.
  destruct w. unfold qr_world. simpl. now rewrite Nat.add_0_r.
Qed.

Lemma qr_world_cons dir stamp w img imgs :
  qr_world dir stamp
    (mkWorld ((path_join dir (qr_name stamp (clock w)), Picture img) :: files w)
             (qr_name stamp (clock w) :: shared w)
             ([qr_name stamp (clock w)] :: synchronized w) (S (clock w))) imgs
  = qr_world dir stamp w (img :: imgs).
Proof.
  unfold qr_world, qr_names. simpl. rewrite <- !app_assoc. simpl.
  now rewrite Nat.add_succ_r.
Qed.

Section Loop.

Variable APP_DIR : string.
Variable strftime_now : nat -> string.
Variable qr_make_image : string -> result Image.

Local Abbreviation qr_loop_body :=
  (generate_qr_code_body APP_DIR strftime_now qr_make_image).

(** The loop over URLs that all encode, from any loop state. *)
Lemma qr_loop_completes urls imgs :
  encoded qr_make_image urls imgs ->
  forall st w, exists st',
    for_each qr_loop_body urls st w = (Ok st', qr_world APP_DIR strftime_now w imgs) /\
    outputs st' = (outputs st ++ qr_names strftime_now (clock w) (List.length urls))%list.
Proof.
  induction 1 as [|u img urls imgs Hu _ IH]; intros st w.
  - exists st. simpl. rewrite qr_world_nil, app_nil_r. now split.
  - simpl for_each. unfold bind.
    rewrite (Processors.qr_body_saves_encoded_url APP_DIR strftime_now qr_make_image
               u st w img Hu).
    cbv zeta.
    destruct (IH (mkLocals (Some (qr_name strftime_now (clock w)))
                    (outputs st ++ [qr_name strftime_now (clock w)])%list)
                 (mkWorld ((path_join APP_DIR (qr_name strftime_now (clock w)), Picture img)
                             :: files w)
                          (qr_name strftime_now (clock w) :: shared w)
                          ([qr_name strftime_now (clock w)] :: synchronized w)
                          (S (clock w)))) as [st' [Hrun Hout]].
    exists st'. fold (qr_name strftime_now (clock w)).
    rewrite Hrun, qr_world_cons. split; [reflexivity|].
    rewrite Hout. simpl. now rewrite <- app_assoc.
Qed.

(** A loop that completes has encoded every URL. *)
Lemma qr_loop_encoded urls :
  forall st w st' w',
    for_each qr_loop_body urls st w = (Ok st', w') ->
    exists imgs, encoded qr_make_image urls imgs.
Proof.
  induction urls as [|u urls IH]; intros st w st' w' H.
  - exists []. constructor.
  - simpl in H. unfold bind in H.
    destruct (qr_make_image u) as [img|e] eqn:E.
    + rewrite (Processors.qr_body_saves_encoded_url APP_DIR strftime_now qr_make_image
                 u st w img E) in H.
      apply IH in H. destruct H as [imgs Himgs].
      exists (img :: imgs). now constructor.
    + unfold generate_qr_code_body, bind, lift in H. rewrite E in H. discriminate H.
Qed.

Lemma encoded_nth qr urls imgs j u :
  encoded qr urls imgs -> nth_error urls j = Some u ->
  exists img, nth_error imgs j = Some img /\ qr u = Ok img.
Proof.
  intro H. revert j. induction H as [|u0 i0 urls imgs H0 _ IH]; intros [|j] Hj;
    simpl in Hj; try discriminate.
  - injection Hj as <-. now exists i0.
  - now apply IH.
Qed.

Lemma nth_error_qr_names (c k j : nat) :
  j < k -> nth_error (qr_names strftime_now c k) j = Some (qr_name strftime_now (c + j)).
Proof.
  revert c j. induction k as [|k IH]; intros c [|j] Hj; try lia.
  - simpl. now rewrite Nat.add_0_r.
  - unfold qr_names in *. simpl. rewrite IH by lia. now rewrite Nat.add_succ_r.
Qed.

Lemma lookup_absent key (l rest : list (string * file)) :
  (forall p, In p l -> fst p <> key) -> lookup key (l ++ rest) = lookup key rest.
Proof.
  induction l as [|[k v] l IH]; intro H; simpl; [reflexivity|].
  destruct (String.eqb k key) eqn:E.
  - apply String.eqb_eq in E. exfalso. apply (H (k, v)); [now left | exact E].
  - apply IH. intros p Hp. apply H. now right.
Qed.

(** In a log of writes, a key resolves to the value of its last writer. *)
Lemma lookup_last_writer (f : nat -> string) (vs : list file) :
  forall c j v rest,
    nth_error vs j = Some v ->
    (forall k, j < k < List.length vs -> f (c + k) <> f (c + j)) ->
    lookup (f (c + j)) (rev (combine (map f (seq c (List.length vs))) vs) ++ rest)%list
    = Some v.
Proof.
  induction vs as [|v0 vs IH]; intros c j v rest Hj Hlast; [now destruct j|].
  simpl List.length. simpl seq. simpl map. simpl combine. simpl rev.
  rewrite <- app_assoc. simpl app.
  destruct j as [|j]; simpl in Hj.
  - injection Hj as <-. rewrite Nat.add_0_r in *.
    rewrite lookup_absent.
    + simpl. now rewrite String.eqb_refl.
    + intros [k v] Hp. simpl. apply in_rev, in_combine_l, in_map_iff in Hp.
      destruct Hp as [n [<- Hn]]. apply in_seq in Hn.
      replace n with (c + (n - c)) by lia. apply Hlast. simpl. lia.
  - replace (c + S j) with (S c + j) by lia. apply IH; [exact Hj|].
    intros k Hk. replace (S c + k) with (c + S k) by lia.
    replace (S c + j) with (c + S j) by lia. apply Hlast. simpl. lia.
Qed.

(** *** The properties *)

(** X1: when every URL of the table encodes, [generate_qr_code] returns the
    table of the timestamp names of the successive clock readings, and leaves
    one file, one share and one synchronize call per row, in row order, with
    the clock read once per row. *)
Theorem generate_qr_code_completes (data : DF UrlInput) (imgs : list Image) (w : World) :
  encoded qr_make_image (map url data) imgs ->
  generate_qr_code APP_DIR strftime_now qr_make_image data w =
  (Ok (pd_DataFrame (qr_names strftime_now (clock w) (List.length data)) ["qr_code"]),
   qr_world APP_DIR strftime_now w imgs).
Proof.
  intro H. unfold generate_qr_code, bind, ret.
  destruct (qr_loop_completes _ _ H entry w) as [st' [Hrun Hout]].
  rewrite Hrun, Hout. simpl. now rewrite length_map.
Qed.

(** X2: when a URL does not encode, the call raises the encoder's exception at
    that row and returns no table, but the files of the rows before it stay
    written, shared and synchronized; the rows after it are never touched. *)
Theorem generate_qr_code_aborts_keeping_earlier_rows
  (pre post : DF UrlInput) (u : string) (imgs : list Image) (w : World) (e : exn) :
  encoded qr_make_image (map url pre) imgs ->
  qr_make_image u = Raise e ->
  generate_qr_code APP_DIR strftime_now qr_make_image (pre ++ mkUrlInput u :: post)%list w =
  (Raise e, qr_world APP_DIR strftime_now w imgs).
Proof.
  intros H Hu. unfold generate_qr_code, bind.
  destruct (qr_loop_completes _ _ H entry w) as [st' [Hrun _]].
  rewrite map_app. simpl map.
  rewrite (for_each_aborts qr_loop_body (map url pre) u (map url post) entry w
             st' (qr_world APP_DIR strftime_now w imgs) e
             (qr_world APP_DIR strftime_now w imgs) Hrun); [reflexivity|].
  unfold generate_qr_code_body, bind, lift. now rewrite Hu.
Qed.

(** X3: after a completed batch, the name returned for a row resolves, under
    APP_DIR, to the image encoded from that row's URL, provided no later row
    of the batch got the same timestamp. *)
Theorem generate_qr_code_name_resolves_to_row
  (data : DF UrlInput) (imgs : list Image) (w : World) (j : nat) (r : UrlInput) :
  encoded qr_make_image (map url data) imgs ->
  nth_error data j = Some r ->
  (forall k, j < k < List.length data ->
             strftime_now (clock w + k) <> strftime_now (clock w + j)) ->
  let out := generate_qr_code APP_DIR strftime_now qr_make_image data w in
  exists table name img,
    fst out = Ok table /\
    nth_error (rows table) j = Some [VStr name] /\
    qr_make_image (url r) = Ok img /\
    lookup (path_join APP_DIR name) (files (snd out)) = Some (Picture img).
Proof.
  intros H Hj Hlast out. subst out.
  rewrite (generate_qr_code_completes data imgs w H). simpl fst. simpl snd.
  assert (Hju : nth_error (map url data) j = Some (url r))
    by (rewrite nth_error_map, Hj; reflexivity).
  destruct (encoded_nth _ _ _ j _ H Hju) as [img [Himg Hqr]].
  pose proof (encoded_length _ _ _ H) as Hlen. rewrite length_map in Hlen.
  assert (Hlt : j < List.length data) by (apply nth_error_Some; rewrite Hj; discriminate).
  eexists. exists (qr_name strftime_now (clock w + j)), img.
  split; [reflexivity|]. split.
  { unfold pd_DataFrame. simpl rows. rewrite nth_error_map.
    now rewrite (nth_error_qr_names (clock w) _ _ Hlt). }
  split; [exact Hqr|].
  unfold qr_world. simpl files. unfold qr_names. rewrite map_map.
  rewrite <- (length_map Picture imgs).
  apply (lookup_last_writer (fun n => path_join APP_DIR (qr_name strftime_now n))).
  - rewrite nth_error_map, Himg. reflexivity.
  - intros k Hk Heq. rewrite length_map, Hlen in Hk.
    apply (Hlast k Hk). apply qr_name_inj. eapply qr_path_inj. exact Heq.
Qed.

(** X4: when a later row of a completed batch gets the same timestamp as an
    earlier one, both rows are returned under one name and that name resolves
    to the later row's image: the earlier row's image is shadowed. *)
Theorem generate_qr_code_equal_timestamps_shadow
  (data : DF UrlInput) (imgs : list Image) (w : World) (i j : nat) (r : UrlInput) :
  encoded qr_make_image (map url data) imgs ->
  i < j ->
  nth_error data j = Some r ->
  strftime_now (clock w + i) = strftime_now (clock w + j) ->
  (forall k, j < k < List.length data ->
             strftime_now (clock w + k) <> strftime_now (clock w + j)) ->
  let out := generate_qr_code APP_DIR strftime_now qr_make_image data w in
  exists table name img,
    fst out = Ok table /\
    nth_error (rows table) i = Some [VStr name] /\
    nth_error (rows table) j = Some [VStr name] /\
    qr_make_image (url r) = Ok img /\
    lookup (path_join APP_DIR name) (files (snd out)) = Some (Picture img).
Proof.
  intros H Hij Hj Heq Hlast out.
  destruct (generate_qr_code_name_resolves_to_row data imgs w j r H Hj Hlast)
    as [table [name [img [Ht [Hrow [Hqr Hlook]]]]]].
  fold out in Ht, Hlook.
  exists table, name, img. repeat split; try assumption.
  subst out. rewrite (generate_qr_code_completes data imgs w H) in Ht.
  simpl in Ht. injection Ht as <-.
  assert (Hlt : j < List.length data) by (apply nth_error_Some; rewrite Hj; discriminate).
  unfold pd_DataFrame in *. simpl rows in *. rewrite nth_error_map in *.
  rewrite (nth_error_qr_names (clock w) _ _ Hlt) in Hrow.
  rewrite (nth_error_qr_names (clock w) _ _ (Nat.lt_trans _ _ _ Hij Hlt)).
  simpl in *. injection Hrow as <-. unfold qr_name. now rewrite Heq.
Qed.

(** X5: batches compose.  Two calls that complete one after the other do
    what a single call on the concatenated table does: the same world, and
    the rows of the first table followed by the rows of the second. *)
Theorem generate_qr_code_batches_compose
  (d1 d2 : DF UrlInput) (w w1 w2 : World) (t1 t2 : DataFrame) :
  generate_qr_code APP_DIR strftime_now qr_make_image d1 w = (Ok t1, w1) ->
  generate_qr_code APP_DIR strftime_now qr_make_image d2 w1 = (Ok t2, w2) ->
  generate_qr_code APP_DIR strftime_now qr_make_image (d1 ++ d2)%list w =
  (Ok (mkDataFrame ["qr_code"] (rows t1 ++ rows t2)%list), w2).
Proof.
  intros H1 H2.
  apply processor_table in H1. destruct H1 as [st1 [L1 ->]].
  apply processor_table in H2. destruct H2 as [st2 [L2 ->]].
  destruct (qr_loop_encoded _ _ _ _ _ L2) as [imgs2 E2].
  destruct (qr_loop_completes _ _ E2 entry w1) as [sa [La Oa]].
  destruct (qr_loop_completes _ _ E2 st1 w1) as [sb [Lb Ob]].
  rewrite L2 in La. injection La as Hs Hw. subst sa.
  unfold generate_qr_code, bind, ret.
  rewrite map_app, for_each_app, L1, Lb, <- Hw.
  unfold pd_DataFrame. simpl rows. rewrite Ob, Oa. simpl.
  now rewrite map_app.
Qed.

(** X6: a table is returned only by a complete run: every URL has been
    encoded, and the table and the world are those of the completed batch. *)
Theorem generate_qr_code_returns_only_complete
  (data : DF UrlInput) (w w' : World) (table : DataFrame) :
  generate_qr_code APP_DIR strftime_now qr_make_image data w = (Ok table, w') ->
  exists imgs,
    encoded qr_make_image (map url data) imgs /\
    table = pd_DataFrame (qr_names strftime_now (clock w) (List.length data)) ["qr_code"] /\
    w' = qr_world APP_DIR strftime_now w imgs.
Proof.
  intro H. pose proof H as H0.
  apply processor_table in H0. destruct H0 as [st' [L _]].
  destruct (qr_loop_encoded _ _ _ _ _ L) as [imgs E].
  exists imgs. split; [exact E|].
  rewrite (generate_qr_code_completes data imgs w E) in H.
  injection H as <- <-. now split.
Qed.

End Loop.

Lemma generate_qr_code_returns_only_complete_witness :
  exists imgs,
    encoded sample_qr (map url two_urls) imgs /\
    pd_DataFrame (qr_names sample_stamp 0 2) ["qr_code"]
    = pd_DataFrame (qr_names sample_stamp (clock studio) (List.length two_urls))
        ["qr_code"] /\
    qr_world sample_dir sample_stamp studio
      [mkImage (1, 1)%nat (PxL [19%Z]); mkImage (1, 1)%nat (PxL [21%Z])]
    = qr_world sample_dir sample_stamp studio imgs.
Proof.
  apply (generate_qr_code_returns_only_complete sample_dir sample_stamp sample_qr
           two_urls studio).
  reflexivity.
Defined.

Lemma generate_qr_code_completes_witness :
  generate_qr_code sample_dir sample_stamp sample_qr two_urls studio =
  (Ok (pd_DataFrame (qr_names sample_stamp 0 2) ["qr_code"]),
   qr_world sample_dir sample_stamp studio
     [mkImage (1, 1)%nat (PxL [19%Z]); mkImage (1, 1)%nat (PxL [21%Z])]).
Proof.
  apply (generate_qr_code_completes sample_dir sample_stamp sample_qr two_urls).
  repeat constructor.
Defined.

Lemma generate_qr_code_aborts_keeping_earlier_rows_witness :
  generate_qr_code sample_dir sample_stamp small_qr
    ([mkUrlInput "https://example.com"]
       ++ mkUrlInput "https://example.org/a" :: [mkUrlInput "https://a.b"])%list studio =
  (Raise DataOverflowError,
   qr_world sample_dir sample_stamp studio [mkImage (1, 1)%nat (PxL [19%Z])]).
Proof.
  apply (generate_qr_code_aborts_keeping_earlier_rows sample_dir sample_stamp small_qr).
  - repeat constructor.
  - reflexivity.
Defined.

Lemma generate_qr_code_name_resolves_to_row_witness :
  let out := generate_qr_code sample_dir sample_stamp sample_qr two_urls studio in
  exists table name img,
    fst out = Ok table /\
    nth_error (rows table) 0 = Some [VStr name] /\
    sample_qr "https://example.com" = Ok img /\
    lookup (path_join sample_dir name) (files (snd out)) = Some (Picture img).
Proof.
  apply (generate_qr_code_name_resolves_to_row sample_dir sample_stamp sample_qr two_urls
           [mkImage (1, 1)%nat (PxL [19%Z]); mkImage (1, 1)%nat (PxL [21%Z])]
           studio 0 (mkUrlInput "https://example.com")).
  - repeat constructor.
  - reflexivity.
  - intros k Hk. simpl in Hk. assert (k = 1) as -> by lia. discriminate.
Defined.

Lemma generate_qr_code_equal_timestamps_shadow_witness :
  let out := generate_qr_code sample_dir frozen_stamp sample_qr two_urls studio in
  exists table name img,
    fst out = Ok table /\
    nth_error (rows table) 0 = Some [VStr name] /\
    nth_error (rows table) 1 = Some [VStr name] /\
    sample_qr "https://example.org/a" = Ok img /\
    lookup (path_join sample_dir name) (files (snd out)) = Some (Picture img).
Proof.
  apply (generate_qr_code_equal_timestamps_shadow sample_dir frozen_stamp sample_qr two_urls
           [mkImage (1, 1)%nat (PxL [19%Z]); mkImage (1, 1)%nat (PxL [21%Z])]
           studio 0 1 (mkUrlInput "https://example.org/a")).
  - repeat constructor.
  - lia.
  - reflexivity.
  - reflexivity.
  - intros k Hk. simpl in Hk. lia.
Defined.

Lemma generate_qr_code_batches_compose_witness :
  generate_qr_code sample_dir sample_stamp sample_qr
    ([mkUrlInput "https://example.com"] ++ [mkUrlInput "https://example.org/a"])%list studio =
  (Ok (mkDataFrame ["qr_code"]
         ([[VStr (qr_name sample_stamp 0)]] ++ [[VStr (qr_name sample_stamp 1)]])%list),
   qr_world sample_dir sample_stamp
     (qr_world sample_dir sample_stamp studio [mkImage (1, 1)%nat (PxL [19%Z])])
     [mkImage (1, 1)%nat (PxL [21%Z])]).
Proof.
  apply (generate_qr_code_batches_compose sample_dir sample_stamp sample_qr
           [mkUrlInput "https://example.com"] [mkUrlInput "https://example.org/a"]
           studio
           (qr_world sample_dir sample_stamp studio [mkImage (1, 1)%nat (PxL [19%Z])])
           _
           (mkDataFrame ["qr_code"] [[VStr (qr_name sample_stamp 0)]])
           (mkDataFrame ["qr_code"] [[VStr (qr_name sample_stamp 1)]]));
    reflexivity.
Defined.

End QRBatch.

(* ------------------------------------------------------------------ *)
(** ** More on the image work of one row *)

Module RowImages.

Local Open Scope Z_scope.

Lemma undo_rgb2cmyk_band (r : Z) :
  is_byte r -> CLIP8 (255 - MULDIV255 (inv8 r) 255) = r.
Proof.
  intros [Hlo Hhi].
  assert (Hall : forallb (fun v => CLIP8 (255 - MULDIV255 (inv8 v) 255) =? v)
                   (map Z.of_nat (seq 0 256)) = true) by (vm_compute; reflexivity).
  rewrite forallb_forall in Hall.
  apply Z.eqb_eq, Hall, in_map_iff.
  exists (Z.to_nat r). split; [now apply Z2Nat.id|].
  apply in_seq. lia.
Qed.

Lemma cmyk2rgb_rgb2cmyk (r g b : Z) :
  is_byte r -> is_byte g -> is_byte b -> cmyk2rgb (rgb2cmyk r g b) = (r, g, b).
Proof.
  intros Hr Hg Hb. unfold cmyk2rgb, rgb2cmyk.
  change (255 - 0) with 255.
  now rewrite !undo_rgb2cmyk_band.
Qed.

Lemma recombine_byte_colours (d : list (Z * Z * Z * Z)) :
  Forall byte_colours d ->
  combine (map (fun '(r, g, b, _) => cmyk2rgb (rgb2cmyk r g b)) d) (map snd d) = d.
Proof.
  induction 1 as [|[[[r g] b] a] d [Hr [Hg Hb]] _ IH]; [reflexivity|].
  cbn [map combine snd]. rewrite IH. now rewrite cmyk2rgb_rgb2cmyk.
Qed.

Lemma threshold_of_level (x : Z) :
  let m := threshold x in threshold (L24 m m m) = 255 - m.
Proof.
  unfold threshold. destruct (x <? 200); reflexivity.
Qed.

Lemma mask_pixel_twice (p : Z * Z * Z * Z) :
  mask_pixel (mask_pixel p) = complement (mask_pixel p).
Proof.
  destruct p as [[[r g] b] a]. unfold mask_pixel, complement.
  pose proof (threshold_of_level (L24 r g b)) as H. cbv zeta in H. now rewrite H.
Qed.

Lemma mask_pixel_thrice (p : Z * Z * Z * Z) :
  mask_pixel (mask_pixel (mask_pixel p)) = mask_pixel p.
Proof.
  destruct p as [[[r g] b] a]. unfold mask_pixel, threshold.
  destruct (L24 r g b <? 200); reflexivity.
Qed.

Lemma mask_pixel_two_level (p : Z * Z * Z * Z) : black_or_white (mask_pixel p).
Proof.
  destruct p as [[[r g] b] a]. unfold mask_pixel, black_or_white, threshold.
  destruct (L24 r g b <? 200); [right | left]; repeat split.
Qed.

(** X7: the image [convert_to_cmyk] computes for a row always exists, has the
    size of the source, and is a CMYK image for every source mode except
    RGBA; for an RGBA source it is an RGBA image. *)
Theorem cmyk_of_result_mode (img : Image) :
  exists out,
    cmyk_of img = Ok out /\
    size out = size img /\
    mode_of out = (if mode_eqb (mode_of img) RGBA then RGBA else CMYK).
Proof.
  destruct img as [sz [d|d|d|d|d]];
    try (eexists; split;
         [apply Cmyk.cmyk_of_other; unfold mode_of; simpl; discriminate
         | split; reflexivity]).
  eexists. split; [apply Cmyk.cmyk_of_RGBA|]. split; reflexivity.
Qed.

(** X8: for an RGBA source whose colour bands are bytes, the image
    [convert_to_cmyk] computes is the source itself: putting the alpha back
    undoes the conversion to CMYK, pixel for pixel. *)
Theorem cmyk_of_RGBA_is_source (sz : nat * nat) (d : list (Z * Z * Z * Z)) :
  Forall byte_colours d ->
  cmyk_of (mkImage sz (PxRGBA d)) = Ok (mkImage sz (PxRGBA d)).
Proof.
  intro H. rewrite Cmyk.cmyk_of_RGBA. now rewrite recombine_byte_colours.
Qed.

Lemma cmyk_of_RGBA_is_source_witness :
  cmyk_of (mkImage (2, 1)%nat (PxRGBA [(10, 10, 10, 77); (250, 250, 250, 200)]))
  = Ok (mkImage (2, 1)%nat (PxRGBA [(10, 10, 10, 77); (250, 250, 250, 200)])).
Proof.
  apply (cmyk_of_RGBA_is_source (2, 1)%nat [(10, 10, 10, 77); (250, 250, 250, 200)]).
  repeat constructor; unfold is_byte; lia.
Defined.

(** X9: the underbase image has the size and the pixel count of the source,
    and every one of its pixels is pure black or pure white in its colour
    bands. *)
Theorem underbase_is_two_level (i : Image) :
  exists out,
    underbase_of (convert RGBA i) = Ok out /\
    size out = size i /\
    List.length (to_RGBA (im out)) = List.length (to_RGBA (im i)) /\
    Forall black_or_white (to_RGBA (im out)).
Proof.
  eexists. split; [apply Underbase.underbase_of_normalised|].
  split; [reflexivity|]. simpl. split; [apply length_map|].
  apply Forall_forall. intros p Hp. apply in_map_iff in Hp.
  destruct Hp as [q [<- _]]. apply mask_pixel_two_level.
Qed.

(** X10: the extraction applied to its own result gives the complementary
    mask, white for black and black for white with the alpha untouched, and
    applied once more gives the first mask back. *)
Theorem underbase_of_own_result (i : Image) :
  exists m1 m2,
    underbase_of (convert RGBA i) = Ok m1 /\
    underbase_of m1 = Ok m2 /\
    to_RGBA (im m2) = map complement (to_RGBA (im m1)) /\
    underbase_of m2 = Ok m1.
Proof.
  do 2 eexists.
  split; [apply Underbase.underbase_of_normalised|].
  split; [apply Underbase.underbase_of_RGBA|].
  split.
  - simpl. rewrite !map_map. apply map_ext. intro p. apply mask_pixel_twice.
  - rewrite Underbase.underbase_of_RGBA. do 3 f_equal.
    rewrite !map_map. apply map_ext. intro p. apply mask_pixel_thrice.
Qed.

End RowImages.

(* ------------------------------------------------------------------ *)
(** ** The three image processors on every table *)

Module ImageBatches.

Local Open Scope string_scope.
Local Open Scope list_scope.
Import Batch.

Section Calls.

Variable APP_DIR : string.
Variable contrast_degenerate : Image -> result Image.
Variable color_degenerate : Image -> result Image.
Variable blend_interp : Image -> Image -> float -> Image.

(** X11: [convert_to_cmyk] and [extract_white_underbase] never change the
    world, whatever the table: they return a table exactly for the empty
    table, and on any other table they raise on the first row, so that the
    rows after it play no part. *)
Theorem cmyk_and_underbase_never_write (data : DF ImageFileInput) (w : World) :
  snd (convert_to_cmyk APP_DIR data w) = w /\
  snd (extract_white_underbase APP_DIR data w) = w /\
  is_ok (fst (convert_to_cmyk APP_DIR data w))
    = match data with [] => true | _ :: _ => false end /\
  is_ok (fst (extract_white_underbase APP_DIR data w))
    = match data with [] => true | _ :: _ => false end /\
  convert_to_cmyk APP_DIR data w = convert_to_cmyk APP_DIR (firstn 1 data) w /\
  extract_white_underbase APP_DIR data w
    = extract_white_underbase APP_DIR (firstn 1 data) w.
Proof.
  destruct data as [|r rest]; [repeat split|].
  destruct (Processors.cmyk_body_entry_raises APP_DIR (file_name r) w) as [e1 H1].
  destruct (Processors.underbase_body_entry_raises APP_DIR (file_name r) w) as [e2 H2].
  assert (C : forall rest', convert_to_cmyk APP_DIR (r :: rest') w = (Raise e1, w)).
  { intro rest'. unfold convert_to_cmyk. simpl map.
    now apply Processors.raise_through_table. }
  assert (U : forall rest', extract_white_underbase APP_DIR (r :: rest') w = (Raise e2, w)).
  { intro rest'. unfold extract_white_underbase. simpl map.
    now apply Processors.raise_through_table. }
  simpl firstn. rewrite !C, !U. repeat split.
Qed.

(** X12: [enhance_image] never changes the world and returns a table exactly
    for the empty table; on a non-empty table what it raises does not depend
    on what the rows hold, nor on how many there are. *)
Theorem enhance_image_blind_to_rows (data : DF ImageEnhancementInput) (w : World) :
  snd (enhance_image APP_DIR contrast_degenerate color_degenerate blend_interp data w) = w /\
  is_ok (fst (enhance_image APP_DIR contrast_degenerate color_degenerate blend_interp
                data w))
    = match data with [] => true | _ :: _ => false end /\
  forall r rest r' rest',
    enhance_image APP_DIR contrast_degenerate color_degenerate blend_interp (r :: rest) w
    = enhance_image APP_DIR contrast_degenerate color_degenerate blend_interp
        (r' :: rest') w.
Proof.
  assert (K : forall r r' : ImageEnhancementInput,
             enhance_image_body APP_DIR contrast_degenerate color_degenerate blend_interp
               [("fileName", VStr (fileName r)); ("contrast", VFloat (contrast r));
                ("saturation", VFloat (saturation r))] entry w
             = enhance_image_body APP_DIR contrast_degenerate color_degenerate blend_interp
               [("fileName", VStr (fileName r')); ("contrast", VFloat (contrast r'));
                ("saturation", VFloat (saturation r'))] entry w) by reflexivity.
  assert (A : forall r rest r' rest',
             enhance_image APP_DIR contrast_degenerate color_degenerate blend_interp
               (r :: rest) w
             = enhance_image APP_DIR contrast_degenerate color_degenerate blend_interp
               (r' :: rest') w
             /\ exists e,
                 enhance_image APP_DIR contrast_degenerate color_degenerate blend_interp
                   (r :: rest) w = (Raise e, w)).
  { intros r rest r' rest'.
    destruct (Processors.enhance_body_opens_key APP_DIR contrast_degenerate
                color_degenerate blend_interp r entry w) as [e [He _]].
    pose proof He as He'. rewrite (K r r') in He'.
    assert (E : forall x xs (Hx : enhance_image_body APP_DIR contrast_degenerate
                                   color_degenerate blend_interp
                                   [("fileName", VStr (fileName x));
                                    ("contrast", VFloat (contrast x));
                                    ("saturation", VFloat (saturation x))] entry w
                                 = (Raise e, w)),
               enhance_image APP_DIR contrast_degenerate color_degenerate blend_interp
                 (x :: xs) w = (Raise e, w)).
    { intros x xs Hx. unfold enhance_image. simpl to_dict_records.
      now apply Processors.raise_through_table. }
    rewrite (E r rest He), (E r' rest' He'). split; [reflexivity | now exists e]. }
  destruct data as [|r rest]; [repeat split; intros; apply A|].
  destruct (A r rest r rest) as [_ [e He]]. rewrite He.
  repeat split. intros; apply A.
Qed.

End Calls.

End ImageBatches.

(* ------------------------------------------------------------------ *)
(** ** What the image processors fail to return *)

Module NoOutput.

Local Open Scope string_scope.
Local Open Scope list_scope.

Section Calls.

Variable APP_DIR : string.
Variable contrast_degenerate : Image -> result Image.
Variable color_degenerate : Image -> result Image.
Variable blend_interp : Image -> Image -> float -> Image.

(** C6: on a non-empty table none of the three image processors returns a
    table, so the input rows get no output row at all: every such call ends
    in an exception raised during the first row, with the world untouched.
    On the two-row table (a.png, logo.png), both decodable, [convert_to_cmyk]
    and [extract_white_underbase] stop at the unbound [filename], and
    [enhance_image] stops at the file called fileName. *)
Theorem image_batches_return_no_row :
  (forall r rest w, exists e,
      convert_to_cmyk APP_DIR (r :: rest) w = (Raise e, w)) /\
  (forall r rest w, exists e,
      extract_white_underbase APP_DIR (r :: rest) w = (Raise e, w)) /\
  (forall r rest w, exists e,
      enhance_image APP_DIR contrast_degenerate color_degenerate blend_interp
        (r :: rest) w = (Raise e, w)) /\
  convert_to_cmyk APP_DIR [mkImageFileInput "a.png"; mkImageFileInput "logo.png"] studio
  = (Raise (UnboundLocalError "filename"), studio) /\
  extract_white_underbase APP_DIR
    [mkImageFileInput "a.png"; mkImageFileInput "logo.png"] studio
  = (Raise (UnboundLocalError "filename"), studio) /\
  enhance_image APP_DIR contrast_degenerate color_degenerate blend_interp
    [mkImageEnhancementInput "a.png" 1%float 1%float;
     mkImageEnhancementInput "logo.png" 1%float 1%float] studio
  = (Raise (FileNotFoundError "fileName"), studio).
Proof.
  split; [intros; apply Processors.convert_to_cmyk_nonempty|].
  split; [intros; apply Processors.extract_white_underbase_nonempty|].
  split; [intros; apply Processors.enhance_image_nonempty|].
  split; [|split].
  - unfold convert_to_cmyk. simpl map. apply Processors.raise_through_table.
    now apply Processors.cmyk_body_unbound with (img := rgb_dot).
  - unfold extract_white_underbase. simpl map. apply Processors.raise_through_table.
    now apply Processors.underbase_body_unbound with (img := rgb_dot).
  - reflexivity.
Qed.

(** C9: two runs of [convert_to_cmyk], one after the other, on the one-row
    table of a.png, a decodable picture without alpha: each run decodes and
    converts the picture and then stops at the unbound [filename]; neither
    run saves, shares or returns anything, so there is no output of either
    run to compare, and the world after both is the world before. *)
Theorem convert_to_cmyk_twice_yields_no_output :
  let first := convert_to_cmyk APP_DIR [mkImageFileInput "a.png"] studio in
  let second := convert_to_cmyk APP_DIR [mkImageFileInput "a.png"] (snd first) in
  fst (Image_open "a.png" studio) = Ok rgb_dot /\
  alpha_plane (im rgb_dot) = None /\
  cmyk_of rgb_dot = Ok (convert CMYK rgb_dot) /\
  fst first = Raise (UnboundLocalError "filename") /\
  fst second = Raise (UnboundLocalError "filename") /\
  snd first = studio /\
  snd second = studio.
Proof.
  assert (H : convert_to_cmyk APP_DIR [mkImageFileInput "a.png"] studio
              = (Raise (UnboundLocalError "filename"), studio)).
  { unfold convert_to_cmyk. simpl map. apply Processors.raise_through_table.
    now apply Processors.cmyk_body_unbound with (img := rgb_dot). }
  cbv zeta. rewrite H. simpl snd. rewrite H. repeat split.
Qed.

End Calls.

End NoOutput.
